(** * Request orchestration of the misinformation-checker page (src/website.js)

    A shallow embedding of the three coordinators of the [App] component
    ([analyzeContent], [summarizeContent], [getMisinformationFact]), of their
    inner [makeApiCall] retry loops and of the React state slots they write.

    Conventions.
    - A JavaScript string is a [string] of bytes holding its UTF-8 text.
    - A JavaScript number is carried by its decimal literal: the code never
      computes with the numbers it receives.
    - [null] and [undefined] are the values [JNull] and [JUndefined].
    - The remote endpoint is a script: the list of the ways in which the
      successive [fetch] calls settle. *)

From Stdlib Require Import ZArith List String Ascii Bool Lia.
Import ListNotations.
Local Open Scope string_scope.
Local Open Scope Z_scope.

(** ** JavaScript values *)

#[local] Set Warnings "-register-all".

Inductive jsval : Type :=
| JUndefined
| JNull
| JBool (b : bool)
| JNum (literal : string)
| JStr (s : string)
| JArr (items : list jsval)
| JObj (fields : list (string * jsval)).

Module Js.

(** *** Strings *)

Definition dquote : ascii := "034"%char.
Definition backslash : ascii := "092"%char.

Definition str1 (c : ascii) : string := String c EmptyString.

Fixpoint rev_onto (s acc : string) : string :=
  match s with
  | EmptyString => acc
  | String c r => rev_onto r (String c acc)
  end.

Definition srev (s : string) : string := rev_onto s EmptyString.

Fixpoint strip_prefix (p s : string) : option string :=
  match p, s with
  | EmptyString, _ => Some s
  | String a p', String b s' => if Ascii.eqb a b then strip_prefix p' s' else None
  | String _ _, EmptyString => None
  end.

Definition bytes (l : list nat) : string :=
  fold_right (fun n s => String (ascii_of_nat n) s) EmptyString l.

(** The code points ECMAScript's [String.prototype.trim] removes (WhiteSpace
    and LineTerminator), each as its UTF-8 bytes. *)
Definition whitespace : list string :=
  [ bytes [9%nat]; bytes [10%nat]; bytes [11%nat]; bytes [12%nat];
    bytes [13%nat]; bytes [32%nat];
    bytes [194%nat; 160%nat];              (* U+00A0 *)
    bytes [225%nat; 154%nat; 128%nat];     (* U+1680 *)
    bytes [226%nat; 128%nat; 128%nat]; bytes [226%nat; 128%nat; 129%nat];
    bytes [226%nat; 128%nat; 130%nat]; bytes [226%nat; 128%nat; 131%nat];
    bytes [226%nat; 128%nat; 132%nat]; bytes [226%nat; 128%nat; 133%nat];
    bytes [226%nat; 128%nat; 134%nat]; bytes [226%nat; 128%nat; 135%nat];
    bytes [226%nat; 128%nat; 136%nat]; bytes [226%nat; 128%nat; 137%nat];
    bytes [226%nat; 128%nat; 138%nat];     (* U+2000 .. U+200A *)
    bytes [226%nat; 128%nat; 168%nat];     (* U+2028 *)
    bytes [226%nat; 128%nat; 169%nat];     (* U+2029 *)
    bytes [226%nat; 128%nat; 175%nat];     (* U+202F *)
    bytes [226%nat; 129%nat; 159%nat];     (* U+205F *)
    bytes [227%nat; 128%nat; 128%nat];     (* U+3000 *)
    bytes [239%nat; 187%nat; 191%nat] ].   (* U+FEFF *)

(** [strip_first ps s]: [s] without the first of the prefixes [ps] it starts
    with, if any. *)
Fixpoint strip_first (ps : list string) (s : string) : option string :=
  match ps with
  | [] => None
  | p :: ps' =>
      match strip_prefix p s with
      | Some r => Some r
      | None => strip_first ps' s
      end
  end.

(** Every whitespace sequence is non-empty, so the length of the string is
    enough fuel. *)
Fixpoint trimStart_fuel (ps : list string) (fuel : nat) (s : string) : string :=
  match fuel with
  | O => s
  | S f =>
      match strip_first ps s with
      | Some r => trimStart_fuel ps f r
      | None => s
      end
  end.

Definition trimStart (s : string) : string :=
  trimStart_fuel whitespace (String.length s) s.

Definition trimEnd (s : string) : string :=
  srev (trimStart_fuel (map srev whitespace) (String.length s) (srev s)).

Definition trim (s : string) : string := trimEnd (trimStart s).

(** *** Truthiness *)

Definition is_digit (c : ascii) : bool :=
  let n := nat_of_ascii c in (48 <=? n)%nat && (n <=? 57)%nat.

(** A decimal literal denotes zero when no digit of its mantissa is
    different from 0. *)
Fixpoint literal_is_zero (s : string) : bool :=
  match s with
  | EmptyString => true
  | String c r =>
      if Ascii.eqb c "e" || Ascii.eqb c "E" then true
      else if is_digit c && negb (Ascii.eqb c "0") then false
      else literal_is_zero r
  end.

Definition truthy (v : jsval) : bool :=
  match v with
  | JUndefined | JNull => false
  | JBool b => b
  | JNum l => negb (literal_is_zero l)
  | JStr s => negb (String.eqb s "")
  | JArr _ | JObj _ => true
  end.

Definition nullish (v : jsval) : bool :=
  match v with
  | JUndefined | JNull => true
  | _ => false
  end.

(** *** Property access *)

Fixpoint assoc (k : string) (fs : list (string * jsval)) : option jsval :=
  match fs with
  | [] => None
  | (k', v) :: r => if String.eqb k k' then Some v else assoc k r
  end.

(** [v.k]: [None] is the TypeError of a property read on null or undefined;
    a missing property reads as [undefined].  None of the names the code
    reads is inherited from a prototype. *)
Definition get_prop (v : jsval) (k : string) : option jsval :=
  match v with
  | JUndefined | JNull => None
  | JObj fs => Some (match assoc k fs with Some x => x | None => JUndefined end)
  | _ => Some JUndefined
  end.

(** [v?.k] *)
Definition opt_prop (v : jsval) (k : string) : jsval :=
  match get_prop v k with
  | Some x => x
  | None => JUndefined
  end.

(** [v?.[0]]: the first item of an array, the first character of a string,
    the property named 0 of an object. *)
Definition opt_index0 (v : jsval) : jsval :=
  match v with
  | JArr (x :: _) => x
  | JStr (String c _) => JStr (str1 c)
  | JObj fs => match assoc "0" fs with Some x => x | None => JUndefined end
  | _ => JUndefined
  end.

End Js.

(** ** [JSON.parse]

    The built-in, written out as a recursive-descent reader of the JSON
    grammar (ECMA-404).  A [\u] escape is stored as the UTF-8 bytes of its
    code unit. *)

Module Json.
Import Js.

Definition is_ws (c : ascii) : bool :=
  Ascii.eqb c " " || Ascii.eqb c "009" || Ascii.eqb c "010" || Ascii.eqb c "013".

Fixpoint skip_ws (s : string) : string :=
  match s with
  | String c r => if is_ws c then skip_ws r else s
  | EmptyString => s
  end.

Definition hex_val (c : ascii) : option nat :=
  let n := nat_of_ascii c in
  if (48 <=? n)%nat && (n <=? 57)%nat then Some (n - 48)%nat
  else if (65 <=? n)%nat && (n <=? 70)%nat then Some (n - 55)%nat
  else if (97 <=? n)%nat && (n <=? 102)%nat then Some (n - 87)%nat
  else None.

Definition hex4 (a b c d : ascii) : option nat :=
  match hex_val a, hex_val b, hex_val c, hex_val d with
  | Some x, Some y, Some z, Some w => Some (((x * 16 + y) * 16 + z) * 16 + w)%nat
  | _, _, _, _ => None
  end.

Definition utf8 (n : nat) : string :=
  if (n <? 128)%nat then bytes [n]
  else if (n <? 2048)%nat then bytes [192 + n / 64; 128 + n mod 64]%nat
  else bytes [224 + n / 4096; 128 + (n / 64) mod 64; 128 + n mod 64]%nat.

Definition escape (c : ascii) : option ascii :=
  if Ascii.eqb c dquote then Some dquote
  else if Ascii.eqb c backslash then Some backslash
  else if Ascii.eqb c "/" then Some "/"%char
  else if Ascii.eqb c "b" then Some "008"%char
  else if Ascii.eqb c "f" then Some "012"%char
  else if Ascii.eqb c "n" then Some "010"%char
  else if Ascii.eqb c "r" then Some "013"%char
  else if Ascii.eqb c "t" then Some "009"%char
  else None.

(** The characters of a string literal after its opening quote: the decoded
    string and what follows the closing quote. *)
Fixpoint read_string (s : string) : option (string * string) :=
  match s with
  | EmptyString => None
  | String c r =>
      if Ascii.eqb c dquote then Some (EmptyString, r)
      else if Ascii.eqb c backslash then
        match r with
        | EmptyString => None
        | String e r' =>
            if Ascii.eqb e "u" then
              match r' with
              | String h1 (String h2 (String h3 (String h4 r''))) =>
                  match hex4 h1 h2 h3 h4, read_string r'' with
                  | Some n, Some (t, rest) => Some (utf8 n ++ t, rest)
                  | _, _ => None
                  end
              | _ => None
              end
            else
              match escape e, read_string r' with
              | Some x, Some (t, rest) => Some (String x t, rest)
              | _, _ => None
              end
        end
      else if (nat_of_ascii c <? 32)%nat then None
      else
        match read_string r with
        | Some (t, rest) => Some (String c t, rest)
        | None => None
        end
  end.

Fixpoint take_digits (s : string) : string * string :=
  match s with
  | String c r =>
      if is_digit c then let '(d, r') := take_digits r in (String c d, r')
      else (EmptyString, s)
  | EmptyString => (EmptyString, EmptyString)
  end.

Definition read_int (s : string) : option (string * string) :=
  match s with
  | String c r =>
      if Ascii.eqb c "0" then Some ("0", r)
      else if is_digit c then Some (take_digits s)
      else None
  | EmptyString => None
  end.

Definition read_frac (s : string) : option (string * string) :=
  match s with
  | String c r =>
      if Ascii.eqb c "." then
        let '(d, r') := take_digits r in
        if String.eqb d "" then None else Some (String c d, r')
      else Some (EmptyString, s)
  | EmptyString => Some (EmptyString, s)
  end.

Definition read_sign (s : string) : string * string :=
  match s with
  | String c r =>
      if Ascii.eqb c "+" || Ascii.eqb c "-" then (str1 c, r) else (EmptyString, s)
  | EmptyString => (EmptyString, s)
  end.

Definition read_exp (s : string) : option (string * string) :=
  match s with
  | String c r =>
      if Ascii.eqb c "e" || Ascii.eqb c "E" then
        let '(sg, r1) := read_sign r in
        let '(d, r2) := take_digits r1 in
        if String.eqb d "" then None else Some (String c (sg ++ d), r2)
      else Some (EmptyString, s)
  | EmptyString => Some (EmptyString, s)
  end.

Definition read_minus (s : string) : string * string :=
  match s with
  | String c r => if Ascii.eqb c "-" then (str1 c, r) else (EmptyString, s)
  | EmptyString => (EmptyString, s)
  end.

Definition read_number (s : string) : option (string * string) :=
  let '(neg, s0) := read_minus s in
  match read_int s0 with
  | None => None
  | Some (i, s1) =>
      match read_frac s1 with
      | None => None
      | Some (f, s2) =>
          match read_exp s2 with
          | None => None
          | Some (e, s3) => Some (neg ++ i ++ f ++ e, s3)
          end
      end
  end.

(** [true], [false], [null] or a number, at the head of [s]. *)
Definition read_atom (s : string) : option (jsval * string) :=
  match strip_prefix "true" s, strip_prefix "false" s, strip_prefix "null" s with
  | Some rest, _, _ => Some (JBool true, rest)
  | _, Some rest, _ => Some (JBool false, rest)
  | _, _, Some rest => Some (JNull, rest)
  | None, None, None =>
      match read_number s with
      | Some (l, rest) => Some (JNum l, rest)
      | None => None
      end
  end.

(** A repeated name keeps its place and takes the later value. *)
Fixpoint obj_set (k : string) (v : jsval) (fs : list (string * jsval))
  : list (string * jsval) :=
  match fs with
  | [] => [(k, v)]
  | (k', v') :: r =>
      if String.eqb k k' then (k, v) :: r else (k', v') :: obj_set k v r
  end.

(** The next character that is not whitespace, and what follows it. *)
Definition peek (s : string) : option (ascii * string) :=
  match skip_ws s with
  | String c r => Some (c, r)
  | EmptyString => None
  end.

Inductive reading : Type :=
| Read (v : jsval) (rest : string)
| Malformed                          (* the SyntaxError *)
| Exhausted.                         (* no fuel left *)

Fixpoint read_value (fuel : nat) (s : string) : reading :=
  match fuel with
  | O => Exhausted
  | S f =>
      match peek s with
      | None => Malformed
      | Some (c, r) =>
          if Ascii.eqb c "{" then
            match peek r with
            | Some (c', r') =>
                if Ascii.eqb c' "}" then Read (JObj []) r'
                else read_members f [] r
            | None => Malformed
            end
          else if Ascii.eqb c "[" then
            match peek r with
            | Some (c', r') =>
                if Ascii.eqb c' "]" then Read (JArr []) r'
                else read_elements f [] r
            | None => Malformed
            end
          else if Ascii.eqb c dquote then
            match read_string r with
            | Some (t, rest) => Read (JStr t) rest
            | None => Malformed
            end
          else
            match read_atom (String c r) with
            | Some (v, rest) => Read v rest
            | None => Malformed
            end
      end
  end

with read_elements (fuel : nat) (acc : list jsval) (s : string) : reading :=
  match fuel with
  | O => Exhausted
  | S f =>
      match read_value f s with
      | Read v r =>
          match peek r with
          | Some (c, r') =>
              if Ascii.eqb c "," then read_elements f (v :: acc) r'
              else if Ascii.eqb c "]" then Read (JArr (rev (v :: acc))) r'
              else Malformed
          | None => Malformed
          end
      | Malformed => Malformed
      | Exhausted => Exhausted
      end
  end

with read_members (fuel : nat) (acc : list (string * jsval)) (s : string)
  : reading :=
  match fuel with
  | O => Exhausted
  | S f =>
      match peek s with
      | None => Malformed
      | Some (c, r) =>
          if Ascii.eqb c dquote then
            match read_string r with
            | None => Malformed
            | Some (k, r1) =>
                match peek r1 with
                | None => Malformed
                | Some (c1, r2) =>
                    if Ascii.eqb c1 ":" then
                      match read_value f r2 with
                      | Read v r3 =>
                          match peek r3 with
                          | Some (c3, r4) =>
                              if Ascii.eqb c3 "," then
                                read_members f (obj_set k v acc) r4
                              else if Ascii.eqb c3 "}" then
                                Read (JObj (obj_set k v acc)) r4
                              else Malformed
                          | None => Malformed
                          end
                      | Malformed => Malformed
                      | Exhausted => Exhausted
                      end
                    else Malformed
                end
            end
          else Malformed
      end
  end.

(** Two units of fuel for every character, and two more, are never used up
    ([read_value_fuel] below). *)
Definition parse_fuel (s : string) : nat := 2 * String.length s + 2.

Definition parse (s : string) : option jsval :=
  match read_value (parse_fuel s) s with
  | Read v rest => if String.eqb (skip_ws rest) "" then Some v else None
  | Malformed | Exhausted => None
  end.

(** [ToString], applied by [JSON.parse] to an argument that is not a
    string. *)
Fixpoint ToString (v : jsval) : string :=
  match v with
  | JUndefined => "undefined"
  | JNull => "null"
  | JBool true => "true"
  | JBool false => "false"
  | JNum l => l
  | JStr s => s
  | JArr l =>
      (fix join (l : list jsval) : string :=
         match l with
         | [] => EmptyString
         | x :: r =>
             (match x with
              | JUndefined | JNull => EmptyString
              | _ => ToString x
              end)
             ++ match r with
                | [] => EmptyString
                | _ :: _ => "," ++ join r
                end
         end) l
  | JObj _ => "[object Object]"
  end.

(** [JSON.parse(v)]: [None] is the SyntaxError. *)
Definition JSON_parse (v : jsval) : option jsval := parse (ToString v).

End Json.

(** ** The component [App] *)

(** *** State hooks (lines 4-11) *)

Record AppState : Type := mkApp {
  inputText : string;
  results : jsval;
  loading : bool;
  error : option string;
  summary : jsval;
  isSummarizing : bool;
  misinformationFact : jsval;
  isGettingFact : bool
}.

Definition initial : AppState :=
  mkApp "" JNull false None JNull false JNull false.

Definition setInputText (v : string) (st : AppState) : AppState :=
  mkApp v (results st) (loading st) (error st) (summary st)
        (isSummarizing st) (misinformationFact st) (isGettingFact st).

Definition setResults (v : jsval) (st : AppState) : AppState :=
  mkApp (inputText st) v (loading st) (error st) (summary st)
        (isSummarizing st) (misinformationFact st) (isGettingFact st).

Definition setLoading (v : bool) (st : AppState) : AppState :=
  mkApp (inputText st) (results st) v (error st) (summary st)
        (isSummarizing st) (misinformationFact st) (isGettingFact st).

Definition setError (v : option string) (st : AppState) : AppState :=
  mkApp (inputText st) (results st) (loading st) v (summary st)
        (isSummarizing st) (misinformationFact st) (isGettingFact st).

Definition setSummary (v : jsval) (st : AppState) : AppState :=
  mkApp (inputText st) (results st) (loading st) (error st) v
        (isSummarizing st) (misinformationFact st) (isGettingFact st).

Definition setIsSummarizing (v : bool) (st : AppState) : AppState :=
  mkApp (inputText st) (results st) (loading st) (error st) (summary st)
        v (misinformationFact st) (isGettingFact st).

Definition setMisinformationFact (v : jsval) (st : AppState) : AppState :=
  mkApp (inputText st) (results st) (loading st) (error st) (summary st)
        (isSummarizing st) v (isGettingFact st).

Definition setIsGettingFact (v : bool) (st : AppState) : AppState :=
  mkApp (inputText st) (results st) (loading st) (error st) (summary st)
        (isSummarizing st) (misinformationFact st) v.

(** *** The endpoint, as the code sees it *)

(** What [await fetch(...)] gives once the promise is fulfilled.  [body] is
    what [await response.json()] returns, [None] when that promise rejects
    (the body is not JSON). *)
Record Response : Type := mkResponse {
  status : Z;
  statusText : string;
  body : option jsval
}.

(** [response.ok] *)
Definition ok (r : Response) : bool := (200 <=? status r) && (status r <=? 299).

Inductive settled : Type :=
| Rejected                    (* the network failed: [fetch] rejects *)
| Fulfilled (r : Response).

(** *** Exceptions and the completion of a [try] block *)

Inductive exn : Type :=
| NetworkError
| ApiError (status : Z) (statusText : string)    (* lines 66, 135, 183 *)
| BodySyntaxError                                (* [response.json()] rejects *)
| TypeError                                      (* property of null *)
| InvalidStructure                               (* line 73 *)
| ParseSyntaxError.                              (* [JSON.parse] throws *)

Inductive completion (A : Type) : Type :=
| Normal (a : A)
| Throw (e : exn).
Arguments Normal {A} a.
Arguments Throw {A} e.

Definition bind {A B : Type} (c : completion A) (k : A -> completion B)
  : completion B :=
  match c with
  | Normal a => k a
  | Throw e => Throw e
  end.

Notation "'let*' x ':=' c 'in' k" := (bind c (fun x => k))
  (at level 10, x name, c at level 100, k at level 200).

(** *** What a coordinator does besides writing state *)

Inductive action : Type := Analyze | Summarize | Fact.

Inductive callback : Type :=
| MakeApiCall                  (* lines 87, 146, 194 *)
| ScrollIntoView.              (* lines 79-81 *)

Inductive effect : Type :=
| Fetch (a : action)
| SetTimeout (cb : callback) (delay : Z)
| ConsoleError (e : exn).

(** *** The parts the three [makeApiCall] have in common *)

Definition maxRetries : Z := 3.
Definition baseDelay : Z := 1000.

(** [await fetch(...)], the [response.ok] test and [await response.json()]
    (lines 59-69, 128-138, 176-186). *)
Definition receive (s : settled) : completion jsval :=
  match s with
  | Rejected => Throw NetworkError
  | Fulfilled r =>
      if negb (ok r) then Throw (ApiError (status r) (statusText r))
      else
        match body r with
        | Some result => Normal result
        | None => Throw BodySyntaxError
        end
  end.

(** [result.candidates?.[0]?.content?.parts?.[0]?.text] (lines 70, 139, 187) *)
Definition text_of (result : jsval) : completion jsval :=
  match Js.get_prop result "candidates" with
  | None => Throw TypeError
  | Some candidates =>
      Normal (Js.opt_prop
                (Js.opt_index0
                   (Js.opt_prop
                      (Js.opt_prop (Js.opt_index0 candidates) "content")
                      "parts"))
                "text")
  end.

(** [baseDelay * (2 ** retryCount)] *)
Definition backoff (retryCount : Z) : Z := baseDelay * 2 ^ retryCount.

(** The [catch] block (lines 83-91, 142-150, 190-198): the new state, the
    new [retryCount] and the effects. *)
Definition catch (message : string) (e : exn) (retryCount : Z) (st : AppState)
  : AppState * Z * list effect :=
  if retryCount <? maxRetries then
    let retryCount := retryCount + 1 in
    let delay := backoff retryCount in
    (st, retryCount, [SetTimeout MakeApiCall delay])
  else
    (setError (Some message) st, retryCount, [ConsoleError e]).

(** *** [analyzeContent] (lines 14-98) *)

Definition analyze_try (s : settled) (st : AppState)
  : completion (AppState * list effect) :=
  let* result := receive s in
  let* jsonText := text_of result in
  if negb (Js.truthy jsonText) then Throw InvalidStructure
  else
    match Json.JSON_parse jsonText with
    | None => Throw ParseSyntaxError
    | Some parsedResult =>
        Normal (setResults parsedResult st, [SetTimeout ScrollIntoView 100])
    end.

Definition analyze_attempt (s : settled) (retryCount : Z) (st : AppState)
  : AppState * Z * list effect :=
  let '(st1, retryCount1, effects) :=
    match analyze_try s st with
    | Normal (st', effects) => (st', retryCount, effects)
    | Throw e => catch "Failed to get a response. Please try again." e retryCount st
    end in
  (setLoading false st1, retryCount1, effects).

(** Lines 15-22; [false] when the coordinator returns before [makeApiCall]. *)
Definition analyze_begin (st : AppState) : AppState * bool :=
  if negb (Js.truthy (JStr (Js.trim (inputText st)))) then
    (setError (Some "Please enter some text to analyze.") st, false)
  else
    (setError None (setResults JNull (setLoading true st)), true).

(** *** [summarizeContent] (lines 100-157) *)

Definition summarize_try (s : settled) (st : AppState)
  : completion (AppState * list effect) :=
  let* result := receive s in
  let* summaryText := text_of result in
  Normal (setSummary summaryText st, []).

Definition summarize_attempt (s : settled) (retryCount : Z) (st : AppState)
  : AppState * Z * list effect :=
  let '(st1, retryCount1, effects) :=
    match summarize_try s st with
    | Normal (st', effects) => (st', retryCount, effects)
    | Throw e => catch "Failed to get a summary. Please try again." e retryCount st
    end in
  (setIsSummarizing false st1, retryCount1, effects).

Definition summarize_begin (st : AppState) : AppState * bool :=
  if negb (Js.truthy (JStr (Js.trim (inputText st)))) then
    (setError (Some "Please enter some text to summarize.") st, false)
  else
    (setSummary JNull (setIsSummarizing true st), true).

(** *** [getMisinformationFact] (lines 159-205) *)

Definition fact_try (s : settled) (st : AppState)
  : completion (AppState * list effect) :=
  let* result := receive s in
  let* factText := text_of result in
  Normal (setMisinformationFact factText st, []).

Definition fact_attempt (s : settled) (retryCount : Z) (st : AppState)
  : AppState * Z * list effect :=
  let '(st1, retryCount1, effects) :=
    match fact_try s st with
    | Normal (st', effects) => (st', retryCount, effects)
    | Throw e => catch "Failed to get a fact. Please try again." e retryCount st
    end in
  (setIsGettingFact false st1, retryCount1, effects).

Definition fact_begin (st : AppState) : AppState * bool :=
  (setError None (setMisinformationFact JNull (setIsGettingFact true st)), true).

(** *** The three coordinators, by name *)

Definition begin (a : action) : AppState -> AppState * bool :=
  match a with
  | Analyze => analyze_begin
  | Summarize => summarize_begin
  | Fact => fact_begin
  end.

Definition attempt (a : action)
  : settled -> Z -> AppState -> AppState * Z * list effect :=
  match a with
  | Analyze => analyze_attempt
  | Summarize => summarize_attempt
  | Fact => fact_attempt
  end.

(** The slots of a coordinator. *)
Definition busy (a : action) (st : AppState) : bool :=
  match a with
  | Analyze => loading st
  | Summarize => isSummarizing st
  | Fact => isGettingFact st
  end.

Definition result (a : action) (st : AppState) : jsval :=
  match a with
  | Analyze => results st
  | Summarize => summary st
  | Fact => misinformationFact st
  end.

Definition failure_message (a : action) : string :=
  match a with
  | Analyze => "Failed to get a response. Please try again."
  | Summarize => "Failed to get a summary. Please try again."
  | Fact => "Failed to get a fact. Please try again."
  end.

(** *** One operation, run alone to its end

    [makeApiCall] calls [fetch]; when the script has no answer left the
    promise stays pending and so does the operation.  A retry timer that was
    set fires and calls [makeApiCall] again. *)

Definition retry_delay (e : effect) : option Z :=
  match e with
  | SetTimeout MakeApiCall d => Some d
  | _ => None
  end.

Definition schedules_retry (effects : list effect) : bool :=
  existsb (fun e => match retry_delay e with Some _ => true | None => false end)
          effects.

Record outcome : Type := mkOutcome {
  final : AppState;
  trace : list effect;
  pending : bool
}.

Fixpoint makeApiCall (a : action) (script : list settled) (retryCount : Z)
  (st : AppState) : outcome :=
  match script with
  | [] => mkOutcome st [Fetch a] true
  | s :: script' =>
      let '(st', retryCount', effects) := attempt a s retryCount st in
      if schedules_retry effects then
        let o := makeApiCall a script' retryCount' st' in
        mkOutcome (final o) (Fetch a :: effects ++ trace o) (pending o)
      else
        mkOutcome st' (Fetch a :: effects) false
  end.

Definition invoke (a : action) (script : list settled) (st : AppState)
  : outcome :=
  let '(st1, proceed) := begin a st in
  if proceed then makeApiCall a script 0 st1
  else mkOutcome st1 [] false.

Definition analyzeContent := invoke Analyze.
Definition summarizeContent := invoke Summarize.
Definition getMisinformationFact := invoke Fact.

(** Observations on a trace. *)
Definition is_fetch (e : effect) : bool :=
  match e with Fetch _ => true | _ => false end.

Definition attempts (t : list effect) : nat := List.length (filter is_fetch t).

Fixpoint retry_delays (t : list effect) : list Z :=
  match t with
  | [] => []
  | e :: t' =>
      match retry_delay e with
      | Some d => d :: retry_delays t'
      | None => retry_delays t'
      end
  end.

(** *** All operations of the page, interleaved

    The event loop: a coordinator is invoked, a pending [fetch] settles, a
    retry timer fires, the user edits the text.  Every [makeApiCall] closure
    is a chain with its own [retryCount]; chains are never removed, so that
    the number of a chain does not change. *)

Inductive stage : Type := AwaitingFetch | AwaitingTimer | Finished.

Record chain : Type := mkChain {
  owner : action;
  retryCount : Z;
  at_stage : stage
}.

Record world : Type := mkWorld {
  app : AppState;
  chains : list chain;
  log : list effect
}.

Inductive input : Type :=
| Edit (text : string)                          (* [onChange]: [setInputText] *)
| Click (a : action)                            (* [onClick] *)
| Settles (a : action) (i : nat) (s : settled)  (* the fetch of chain [i] *)
| Fires (a : action) (i : nat).                 (* the retry timer of chain [i] *)

Definition action_eqb (a b : action) : bool :=
  match a, b with
  | Analyze, Analyze | Summarize, Summarize | Fact, Fact => true
  | _, _ => false
  end.

Definition stage_eqb (a b : stage) : bool :=
  match a, b with
  | AwaitingFetch, AwaitingFetch | AwaitingTimer, AwaitingTimer
  | Finished, Finished => true
  | _, _ => false
  end.

Fixpoint set_nth {A : Type} (i : nat) (x : A) (l : list A) : list A :=
  match l, i with
  | [], _ => []
  | _ :: r, O => x :: r
  | y :: r, S j => y :: set_nth j x r
  end.

(** The chain [i], when it belongs to [a] and is at stage [g]. *)
Definition chain_at (w : world) (a : action) (i : nat) (g : stage) : option chain :=
  match nth_error (chains w) i with
  | Some t =>
      if action_eqb (owner t) a && stage_eqb (at_stage t) g then Some t else None
  | None => None
  end.

Definition step (w : world) (e : input) : option world :=
  match e with
  | Edit text => Some (mkWorld (setInputText text (app w)) (chains w) (log w))
  | Click a =>
      let '(st1, proceed) := begin a (app w) in
      if proceed then
        Some (mkWorld st1 (chains w ++ [mkChain a 0 AwaitingFetch])
                      (log w ++ [Fetch a]))
      else Some (mkWorld st1 (chains w) (log w))
  | Settles a i s =>
      match chain_at w a i AwaitingFetch with
      | Some t =>
          let '(st', retryCount', effects) := attempt a s (retryCount t) (app w) in
          let next := if schedules_retry effects then AwaitingTimer else Finished in
          Some (mkWorld st' (set_nth i (mkChain a retryCount' next) (chains w))
                        (log w ++ effects))
      | None => None
      end
  | Fires a i =>
      match chain_at w a i AwaitingTimer with
      | Some t =>
          Some (mkWorld (app w)
                        (set_nth i (mkChain a (retryCount t) AwaitingFetch) (chains w))
                        (log w ++ [Fetch a]))
      | None => None
      end
  end.

Fixpoint exec (w : world) (es : list input) : option world :=
  match es with
  | [] => Some w
  | e :: es' =>
      match step w e with
      | Some w' => exec w' es'
      | None => None
      end
  end.

(** The coordinator an input belongs to; an edit belongs to none. *)
Definition input_owner (e : input) : option action :=
  match e with
  | Edit _ => None
  | Click a | Settles a _ _ | Fires a _ => Some a
  end.

(** ** Sample data *)

Module Samples.
Import Js.

(** A body with [t] at [candidates[0].content.parts[0].text]. *)
Definition with_text (t : jsval) : jsval :=
  JObj [("candidates",
         JArr [JObj [("content",
                      JObj [("parts", JArr [JObj [("text", t)]])])]])].

Definition ok200 (b : jsval) : settled := Fulfilled (mkResponse 200 "OK" (Some b)).

Definition http500 : settled :=
  Fulfilled (mkResponse 500 "Internal Server Error" None).

Definition typed (text : string) : AppState := setInputText text initial.

Definition headline : string := "Chocolate extends lifespan by 10 years".

Definition q : string := str1 dquote.

(** The text [{"credibilityScore": 15, "breakdown":"..."}]. *)
Definition sample_analysis : string :=
  "{" ++ q ++ "credibilityScore" ++ q ++ ": 15, " ++ q ++ "breakdown" ++ q ++ ":"
      ++ q ++ "..." ++ q ++ "}".

(** The text [{"credibilityScore": "high", "breakdown": "..."}]. *)
Definition sample_wrong_type : string :=
  "{" ++ q ++ "credibilityScore" ++ q ++ ": " ++ q ++ "high" ++ q ++ ", "
      ++ q ++ "breakdown" ++ q ++ ": " ++ q ++ "..." ++ q ++ "}".

End Samples.


(** ** Vocabulary of the properties *)

(** The [try] block, the busy flag and the result slot of a coordinator. *)
Definition try_block (a : action)
  : settled -> AppState -> completion (AppState * list effect) :=
  match a with
  | Analyze => analyze_try
  | Summarize => summarize_try
  | Fact => fact_try
  end.

Definition setBusy (a : action) : bool -> AppState -> AppState :=
  match a with
  | Analyze => setLoading
  | Summarize => setIsSummarizing
  | Fact => setIsGettingFact
  end.

Definition setResult (a : action) : jsval -> AppState -> AppState :=
  match a with
  | Analyze => setResults
  | Summarize => setSummary
  | Fact => setMisinformationFact
  end.

(** The attempt of [a] that settles as [s] ends in the [catch] block. *)
Definition failing (a : action) (s : settled) : bool :=
  match try_block a s initial with
  | Throw _ => true
  | Normal _ => false
  end.

(** Failures of the client layer: no answer (Transport) or an answer whose
    status is not 2xx (HttpStatus). *)
Definition client_failure (s : settled) : bool :=
  match s with
  | Rejected => true
  | Fulfilled r => negb (ok r)
  end.

(** A string made of the sequences [ws] only. *)
Inductive made_of (ws : list string) : string -> Prop :=
| made_empty : made_of ws ""
| made_more (w s : string) : In w ws -> made_of ws s -> made_of ws (w ++ s).

(** A string that is empty or made of whitespace only. *)
Definition blank : string -> Prop := made_of Js.whitespace.

(** The coordinator goes on to the network: it has no test of the input, or
    the input is not blank. *)
Definition accepted (a : action) (st : AppState) : Prop :=
  a = Fact \/ Js.trim (inputText st) <> "".

Definition validation_message (a : action) : string :=
  match a with
  | Analyze => "Please enter some text to analyze."
  | Summarize => "Please enter some text to summarize."
  | Fact => ""
  end.

(** No whitespace sequence starts with another one. *)
Definition prefix_free (ws : list string) : bool :=
  forallb (fun w =>
    forallb (fun w' =>
      match Js.strip_prefix w' w with
      | Some r => String.eqb r "" && String.eqb w w'
      | None => true
      end) ws) ws.

(** The inputs that run chain [i] alone against a script. *)
Fixpoint schedule (a : action) (i : nat) (script : list settled)
  (retryCount : Z) (st : AppState) : list input :=
  match script with
  | [] => []
  | s :: script' =>
      let '(st', retryCount', effects) := attempt a s retryCount st in
      Settles a i s ::
        (if schedules_retry effects
         then Fires a i :: schedule a i script' retryCount' st'
         else [])
  end.

(** ** The rest of the component *)

(** *** The helpers of the results panel (lines 208-220)

    [score] is a number with an integer value; on such numbers [>] is the
    order of [Z]. *)

Definition getCredibilityBarColor (score : Z) : string :=
  if 70 <? score then "bg-green-500"
  else if 40 <? score then "bg-yellow-500"
  else "bg-red-500".

Definition getScoreText (score : Z) : string :=
  if 90 <? score then "Extremely Credible"
  else if 70 <? score then "Highly Credible"
  else if 50 <? score then "Moderately Credible"
  else if 30 <? score then "Potentially Misleading"
  else "Highly Misleading".

(** *** What the markup makes of the state (lines 244-333) *)

(** The [disabled] attribute of the button of a coordinator
    (lines 246, 259, 313). *)
Definition disabled (a : action) (st : AppState) : bool :=
  match a with
  | Analyze => loading st
  | Summarize =>
      isSummarizing st || negb (Js.truthy (JStr (Js.trim (inputText st))))
  | Fact => isGettingFact st
  end.

(** [{error && ...}] (line 272): the message on the page, if any. *)
Definition error_shown (st : AppState) : option string :=
  match error st with
  | Some m => if Js.truthy (JStr m) then Some m else None
  | None => None
  end.

(** [{summary && ...}], [{results && ...}], [{misinformationFact && ...}]
    (lines 275, 284, 326): whether the panel of a coordinator is there. *)
Definition panel_shown (a : action) (st : AppState) : bool :=
  Js.truthy (result a st).

(** *** The event loop behind the buttons

    A click reaches the handler only when the button is not disabled. *)
Definition ui_step (w : world) (e : input) : option world :=
  match e with
  | Click a => if disabled a (app w) then None else step w e
  | _ => step w e
  end.

Fixpoint ui_exec (w : world) (es : list input) : option world :=
  match es with
  | [] => Some w
  | e :: es' =>
      match ui_step w e with
      | Some w' => ui_exec w' es'
      | None => None
      end
  end.

(** ** Vocabulary of the further properties *)

(** The labels and the colours, from the lowest score up. *)
Definition score_texts : list string :=
  ["Highly Misleading"; "Potentially Misleading"; "Moderately Credible";
   "Highly Credible"; "Extremely Credible"].

Definition bar_colors : list string :=
  ["bg-red-500"; "bg-yellow-500"; "bg-green-500"].

Fixpoint index_of (x : string) (l : list string) : nat :=
  match l with
  | [] => O
  | y :: r => if String.eqb x y then O else S (index_of x r)
  end.

(** The first [n] answers of the script are there and all make the attempt
    fail. *)
Fixpoint all_fail (a : action) (n : nat) (script : list settled) : bool :=
  match n with
  | O => true
  | S n' =>
      match script with
      | [] => false
      | s :: r => failing a s && all_fail a n' r
      end
  end.


(** A chain of [a] that has not come to its end. *)
Definition is_live (a : action) (c : chain) : bool :=
  action_eqb (owner c) a && negb (stage_eqb (at_stage c) Finished).

Definition live (a : action) (w : world) : nat :=
  List.length (filter (is_live a) (chains w)).

Definition is_edit (e : input) : bool :=
  match e with
  | Edit _ => true
  | _ => false
  end.


Definition sum (l : list Z) : Z := fold_right Z.add 0 l.



(** * Properties *)

(** ** The reader of JSON and [trim] on examples *)

Module Examples.
Import Js Json Samples.

Example parse_sample_analysis :
  parse sample_analysis
  = Some (JObj [("credibilityScore", JNum "15"); ("breakdown", JStr "...")]).
Proof. vm_compute. reflexivity. Qed.

Example parse_sample_wrong_type :
  parse sample_wrong_type
  = Some (JObj [("credibilityScore", JStr "high"); ("breakdown", JStr "...")]).
Proof. vm_compute. reflexivity. Qed.

Example parse_nested :
  parse ("[1, -2.50e+3, [true, null], {" ++ q ++ "a" ++ q ++ ": [] }] ")
  = Some (JArr [JNum "1"; JNum "-2.50e+3"; JArr [JBool true; JNull];
                JObj [("a", JArr [])]]).
Proof. vm_compute. reflexivity. Qed.

Example parse_rejects :
  map parse ["";  "high"; "01"; "[1,]"; "{a: 1}"; "1 2"; "-"; "1."; "tru"]
  = [None; None; None; None; None; None; None; None; None].
Proof. vm_compute. reflexivity. Qed.

Example parse_escape :
  parse (q ++ "a" ++ str1 backslash ++ "n" ++ str1 backslash ++ "u0041" ++ q)
  = Some (JStr (String "a" (String "010" "A"))).
Proof. vm_compute. reflexivity. Qed.

Example trim_examples :
  map trim ["   "; ""; "  a b  "; String "009" (String "010" "x");
            bytes [194; 160]%nat]
  = [""; ""; "a b"; "x"; ""].
Proof. vm_compute. reflexivity. Qed.

Example text_of_sample :
  text_of (with_text (JStr "hi")) = Normal (JStr "hi")
  /\ text_of (JObj []) = Normal JUndefined
  /\ text_of JNull = Throw TypeError.
Proof. repeat split. Qed.

End Examples.

(** ** The reader of JSON has fuel enough *)

Section Fuel.
Import Js Json.

Lemma skip_ws_length (s : string) :
  (String.length (skip_ws s) <= String.length s)%nat.
Proof.
  induction s as [|c s IH]; cbn; [lia|].
  destruct (is_ws c); cbn; lia.
Qed.

Lemma peek_length (s : string) (c : ascii) (r : string) :
  peek s = Some (c, r) -> (String.length r < String.length s)%nat.
Proof.
  unfold peek. pose proof (skip_ws_length s) as H.
  destruct (skip_ws s) as [|c' r']; [discriminate|].
  intros [= <- <-]. cbn in H. lia.
Qed.

Lemma read_string_length (n : nat) :
  forall s t rest,
    (String.length s <= n)%nat -> read_string s = Some (t, rest) ->
    (String.length rest < String.length s)%nat.
Proof.
  induction n as [|n IH]; intros s t rest Hn; destruct s as [|c r];
    cbn [read_string]; try discriminate; cbn in Hn; [lia|].
  destruct (Ascii.eqb c dquote).
  { intros [= <- <-]. cbn. lia. }
  destruct (Ascii.eqb c backslash).
  - destruct r as [|e r']; [discriminate|].
    destruct (Ascii.eqb e "u").
    + destruct r' as [|h1 [|h2 [|h3 [|h4 r'']]]]; try discriminate.
      destruct (hex4 h1 h2 h3 h4); [|discriminate].
      destruct (read_string r'') as [[t0 rest0]|] eqn:Hr; [|discriminate].
      intros [= <- <-]. apply IH in Hr; cbn in *; lia.
    + destruct (escape e); [|discriminate].
      destruct (read_string r') as [[t0 rest0]|] eqn:Hr; [|discriminate].
      intros [= <- <-]. apply IH in Hr; cbn in *; lia.
  - destruct (nat_of_ascii c <? 32)%nat; [discriminate|].
    destruct (read_string r) as [[t0 rest0]|] eqn:Hr; [|discriminate].
    intros [= <- <-]. apply IH in Hr; cbn in *; lia.
Qed.

Lemma take_digits_length (s : string) :
  (String.length (snd (take_digits s)) <= String.length s)%nat.
Proof.
  induction s as [|c s IH]; cbn; [lia|].
  destruct (is_digit c); [|cbn; lia].
  destruct (take_digits s) as [d r']. cbn in *. lia.
Qed.

Lemma read_int_length (s i r : string) :
  read_int s = Some (i, r) -> (String.length r < String.length s)%nat.
Proof.
  destruct s as [|c s]; cbn [read_int]; [discriminate|].
  destruct (Ascii.eqb c "0"); [intros [= <- <-]; cbn; lia|].
  destruct (is_digit c) eqn:Hd; [|discriminate].
  cbn [take_digits]. rewrite Hd.
  pose proof (take_digits_length s) as H.
  destruct (take_digits s) as [d r']. intros [= <- <-]. cbn in *. lia.
Qed.

Lemma read_frac_length (s f r : string) :
  read_frac s = Some (f, r) -> (String.length r <= String.length s)%nat.
Proof.
  destruct s as [|c s]; cbn [read_frac]; [intros [= <- <-]; cbn; lia|].
  destruct (Ascii.eqb c ".").
  - pose proof (take_digits_length s) as H.
    destruct (take_digits s) as [d r'].
    destruct (String.eqb d ""); [discriminate|].
    intros [= <- <-]. cbn in *. lia.
  - intros [= <- <-]. cbn. lia.
Qed.

Lemma read_exp_length (s e r : string) :
  read_exp s = Some (e, r) -> (String.length r <= String.length s)%nat.
Proof.
  destruct s as [|c s]; cbn [read_exp]; [intros [= <- <-]; cbn; lia|].
  destruct (Ascii.eqb c "e" || Ascii.eqb c "E").
  - assert (Hs : (String.length (snd (read_sign s)) <= String.length s)%nat).
    { destruct s as [|c' s']; cbn; [lia|].
      destruct (Ascii.eqb c' "+" || Ascii.eqb c' "-"); cbn; lia. }
    destruct (read_sign s) as [sg r1].
    pose proof (take_digits_length r1) as H.
    destruct (take_digits r1) as [d r2].
    destruct (String.eqb d ""); [discriminate|].
    intros [= <- <-]. cbn in *. lia.
  - intros [= <- <-]. cbn. lia.
Qed.

Lemma read_number_length (s l r : string) :
  read_number s = Some (l, r) -> (String.length r < String.length s)%nat.
Proof.
  unfold read_number.
  assert (Hm : (String.length (snd (read_minus s)) <= String.length s)%nat).
  { destruct s as [|c' s']; cbn; [lia|].
    destruct (Ascii.eqb c' "-"); cbn; lia. }
  destruct (read_minus s) as [neg s0]. cbn [snd] in Hm.
  destruct (read_int s0) as [[i s1]|] eqn:Hi; [|discriminate].
  destruct (read_frac s1) as [[f s2]|] eqn:Hf; [|discriminate].
  destruct (read_exp s2) as [[e s3]|] eqn:He; [|discriminate].
  intros [= <- <-].
  apply read_int_length in Hi. apply read_frac_length in Hf.
  apply read_exp_length in He. lia.
Qed.

Lemma strip_prefix_length (p s r : string) :
  strip_prefix p s = Some r ->
  String.length s = (String.length p + String.length r)%nat.
Proof.
  revert s. induction p as [|c p IH]; intros s; cbn.
  - intros [= ->]. reflexivity.
  - destruct s as [|d s]; [discriminate|].
    destruct (Ascii.eqb c d); [|discriminate].
    intros H. apply IH in H. cbn. lia.
Qed.

Lemma read_atom_length (s : string) (v : jsval) (r : string) :
  read_atom s = Some (v, r) -> (String.length r < String.length s)%nat.
Proof.
  unfold read_atom.
  destruct (strip_prefix "true" s) as [r1|] eqn:H1.
  { intros [= <- <-]. apply strip_prefix_length in H1. cbn in H1. lia. }
  destruct (strip_prefix "false" s) as [r2|] eqn:H2.
  { intros [= <- <-]. apply strip_prefix_length in H2. cbn in H2. lia. }
  destruct (strip_prefix "null" s) as [r3|] eqn:H3.
  { intros [= <- <-]. apply strip_prefix_length in H3. cbn in H3. lia. }
  destruct (read_number s) as [[l rest]|] eqn:Hn; [|discriminate].
  intros [= <- <-]. exact (read_number_length _ _ _ Hn).
Qed.

(** What a reader returns is shorter than what it was given. *)
Lemma readers_consume (fuel : nat) :
  (forall s v r, read_value fuel s = Read v r ->
     (String.length r < String.length s)%nat)
  /\ (forall acc s v r, read_elements fuel acc s = Read v r ->
        (String.length r < String.length s)%nat)
  /\ (forall acc s v r, read_members fuel acc s = Read v r ->
        (String.length r < String.length s)%nat).
Proof.
  induction fuel as [|f (IHv & IHe & IHm)];
    [repeat split; intros; discriminate|].
  split; [|split].
  - intros s v r. cbn [read_value].
    destruct (peek s) as [[c r0]|] eqn:Hp; [|discriminate].
    apply peek_length in Hp.
    destruct (Ascii.eqb c "{").
    { destruct (peek r0) as [[c' r']|] eqn:Hp'; [|discriminate].
      apply peek_length in Hp'.
      destruct (Ascii.eqb c' "}").
      - intros [= <- <-]. lia.
      - intros H. apply IHm in H. lia. }
    destruct (Ascii.eqb c "[").
    { destruct (peek r0) as [[c' r']|] eqn:Hp'; [|discriminate].
      apply peek_length in Hp'.
      destruct (Ascii.eqb c' "]").
      - intros [= <- <-]. lia.
      - intros H. apply IHe in H. lia. }
    destruct (Ascii.eqb c dquote).
    { destruct (read_string r0) as [[t rest]|] eqn:Hs; [|discriminate].
      intros [= <- <-]. apply (read_string_length _ _ _ _ (le_n _)) in Hs. lia. }
    destruct (read_atom (String c r0)) as [[v0 rest]|] eqn:Ha; [|discriminate].
    intros [= <- <-]. apply read_atom_length in Ha. cbn in Ha. lia.
  - intros acc s v r. cbn [read_elements].
    destruct (read_value f s) as [v0 r0| |] eqn:Hv; try discriminate.
    apply IHv in Hv.
    destruct (peek r0) as [[c r']|] eqn:Hp; [|discriminate].
    apply peek_length in Hp.
    destruct (Ascii.eqb c ",").
    { intros H. apply IHe in H. lia. }
    destruct (Ascii.eqb c "]"); [|discriminate].
    intros [= <- <-]. lia.
  - intros acc s v r. cbn [read_members].
    destruct (peek s) as [[c r0]|] eqn:Hp; [|discriminate].
    apply peek_length in Hp.
    destruct (Ascii.eqb c dquote); [|discriminate].
    destruct (read_string r0) as [[k r1]|] eqn:Hs; [|discriminate].
    apply (read_string_length _ _ _ _ (le_n _)) in Hs.
    destruct (peek r1) as [[c1 r2]|] eqn:Hp1; [|discriminate].
    apply peek_length in Hp1.
    destruct (Ascii.eqb c1 ":"); [|discriminate].
    destruct (read_value f r2) as [v0 r3| |] eqn:Hv; try discriminate.
    apply IHv in Hv.
    destruct (peek r3) as [[c3 r4]|] eqn:Hp3; [|discriminate].
    apply peek_length in Hp3.
    destruct (Ascii.eqb c3 ",").
    { intros H. apply IHm in H. lia. }
    destruct (Ascii.eqb c3 "}"); [|discriminate].
    intros [= <- <-]. lia.
Qed.

(** The fuel [parse] starts from is never used up. *)
Lemma readers_fuel (fuel : nat) :
  (forall s, (2 * String.length s + 2 <= fuel)%nat ->
     read_value fuel s <> Exhausted)
  /\ (forall acc s, (2 * String.length s + 3 <= fuel)%nat ->
        read_elements fuel acc s <> Exhausted)
  /\ (forall acc s, (2 * String.length s + 3 <= fuel)%nat ->
        read_members fuel acc s <> Exhausted).
Proof.
  induction fuel as [|f (IHv & IHe & IHm)];
    [repeat split; intros; lia|].
  split; [|split].
  - intros s Hs. cbn [read_value].
    destruct (peek s) as [[c r0]|] eqn:Hp; [|discriminate].
    apply peek_length in Hp.
    destruct (Ascii.eqb c "{").
    { destruct (peek r0) as [[c' r']|] eqn:Hp'; [|discriminate].
      destruct (Ascii.eqb c' "}"); [discriminate|].
      apply IHm. lia. }
    destruct (Ascii.eqb c "[").
    { destruct (peek r0) as [[c' r']|] eqn:Hp'; [|discriminate].
      destruct (Ascii.eqb c' "]"); [discriminate|].
      apply IHe. lia. }
    destruct (Ascii.eqb c dquote).
    { destruct (read_string r0) as [[t rest]|]; discriminate. }
    destruct (read_atom (String c r0)) as [[v0 rest]|]; discriminate.
  - intros acc s Hs. cbn [read_elements].
    destruct (read_value f s) as [v0 r0| |] eqn:Hv; try discriminate.
    + apply (proj1 (readers_consume f)) in Hv.
      destruct (peek r0) as [[c r']|] eqn:Hp; [|discriminate].
      apply peek_length in Hp.
      destruct (Ascii.eqb c ","); [apply IHe; lia|].
      destruct (Ascii.eqb c "]"); discriminate.
    + exfalso. apply (IHv s); [lia|exact Hv].
  - intros acc s Hs. cbn [read_members].
    destruct (peek s) as [[c r0]|] eqn:Hp; [|discriminate].
    apply peek_length in Hp.
    destruct (Ascii.eqb c dquote); [|discriminate].
    destruct (read_string r0) as [[k r1]|] eqn:Hstr; [|discriminate].
    apply (read_string_length _ _ _ _ (le_n _)) in Hstr.
    destruct (peek r1) as [[c1 r2]|] eqn:Hp1; [|discriminate].
    apply peek_length in Hp1.
    destruct (Ascii.eqb c1 ":"); [|discriminate].
    destruct (read_value f r2) as [v0 r3| |] eqn:Hv; try discriminate.
    + apply (proj1 (readers_consume f)) in Hv.
      destruct (peek r3) as [[c3 r4]|] eqn:Hp3; [|discriminate].
      apply peek_length in Hp3.
      destruct (Ascii.eqb c3 ","); [apply IHm; lia|].
      destruct (Ascii.eqb c3 "}"); discriminate.
    + exfalso. apply (IHv r2); [lia|exact Hv].
Qed.

Lemma read_value_fuel (s : string) : read_value (parse_fuel s) s <> Exhausted.
Proof. apply (proj1 (readers_fuel (parse_fuel s))). unfold parse_fuel. lia. Qed.

(** [JSON.parse] throws exactly on the texts the grammar rejects, or on
    what is left after the value. *)
Lemma parse_none (s : string) :
  parse s = None <->
  read_value (parse_fuel s) s = Malformed
  \/ exists v rest, read_value (parse_fuel s) s = Read v rest
                    /\ skip_ws rest <> "".
Proof.
  unfold parse. pose proof (read_value_fuel s) as Hfuel.
  destruct (read_value (parse_fuel s) s) as [v rest| |]; [| |congruence].
  - destruct (String.eqb_spec (skip_ws rest) "") as [He|He]; split.
    + discriminate.
    + intros [H|(v' & rest' & [= <- <-] & H)]; [discriminate|contradiction].
    + intros _. right. eauto.
    + reflexivity.
  - split; [left|]; reflexivity.
Qed.

End Fuel.

(** ** One attempt *)

Section Attempt.

Variable a : action.

Lemma attempt_unfold (s : settled) (rc : Z) (st : AppState) :
  attempt a s rc st =
  match try_block a s st with
  | Normal (st', effects) => (setBusy a false st', rc, effects)
  | Throw e =>
      if rc <? maxRetries then
        (setBusy a false st, rc + 1, [SetTimeout MakeApiCall (backoff (rc + 1))])
      else
        (setBusy a false (setError (Some (failure_message a)) st), rc,
         [ConsoleError e])
  end.
Proof.
  destruct a; cbn [attempt try_block setBusy failure_message];
    unfold analyze_attempt, summarize_attempt, fact_attempt, catch;
    (match goal with |- context [match ?t with Normal _ => _ | Throw _ => _ end] =>
       destruct t as [[st' effects]|e] end);
    try reflexivity; destruct (rc <? maxRetries); reflexivity.
Qed.

(** Whether the [try] block throws does not depend on the state. *)
Lemma try_block_throws (s : settled) (st : AppState) :
  failing a s = true -> exists e, try_block a s st = Throw e.
Proof.
  unfold failing.
  destruct a; cbn [try_block];
    unfold analyze_try, summarize_try, fact_try, bind;
    destruct (receive s) as [result|e]; eauto;
    destruct (text_of result) as [t|e]; eauto; try discriminate.
  destruct (negb (Js.truthy t)); eauto.
  destruct (Json.JSON_parse t); eauto; discriminate.
Qed.

Lemma try_block_returns (s : settled) (st : AppState) :
  failing a s = false ->
  exists v effects,
    try_block a s st = Normal (setResult a v st, effects)
    /\ schedules_retry effects = false.
Proof.
  unfold failing.
  destruct a; cbn [try_block setResult];
    unfold analyze_try, summarize_try, fact_try, bind;
    destruct (receive s) as [result|e]; try discriminate;
    destruct (text_of result) as [t|e]; try discriminate; eauto.
  destruct (negb (Js.truthy t)); try discriminate.
  destruct (Json.JSON_parse t); try discriminate; eauto.
Qed.

Lemma attempt_retry (s : settled) (rc : Z) (st : AppState) :
  failing a s = true -> rc < maxRetries ->
  attempt a s rc st
  = (setBusy a false st, rc + 1, [SetTimeout MakeApiCall (backoff (rc + 1))]).
Proof.
  intros Hf Hrc. rewrite attempt_unfold.
  destruct (try_block_throws s st Hf) as [e ->].
  apply Z.ltb_lt in Hrc. rewrite Hrc. reflexivity.
Qed.

Lemma attempt_give_up (s : settled) (rc : Z) (st : AppState) :
  failing a s = true -> maxRetries <= rc ->
  exists e,
    attempt a s rc st
    = (setBusy a false (setError (Some (failure_message a)) st), rc,
       [ConsoleError e]).
Proof.
  intros Hf Hrc. rewrite attempt_unfold.
  destruct (try_block_throws s st Hf) as [e ->].
  apply Z.ltb_ge in Hrc. rewrite Hrc. eauto.
Qed.

Lemma attempt_success (s : settled) (rc : Z) (st : AppState) :
  failing a s = false ->
  exists v effects,
    attempt a s rc st = (setBusy a false (setResult a v st), rc, effects)
    /\ schedules_retry effects = false.
Proof.
  intros Hf. rewrite attempt_unfold.
  destruct (try_block_returns s st Hf) as (v & effects & -> & He). eauto.
Qed.

Lemma client_failure_failing (s : settled) :
  client_failure s = true -> failing a s = true.
Proof.
  unfold failing.
  destruct s as [|r]; cbn [client_failure]; intros H;
    destruct a; cbn [try_block];
    unfold analyze_try, summarize_try, fact_try, bind, receive;
    try rewrite H; reflexivity.
Qed.

End Attempt.

(** ** The retry loop *)

Section RetryLoop.

Variable a : action.

Lemma schedules_retry_none (effects : list effect) :
  schedules_retry effects = false -> retry_delays effects = [].
Proof.
  induction effects as [|e effects IH]; [reflexivity|].
  cbn [schedules_retry existsb retry_delays].
  destruct (retry_delay e); cbn [orb]; [discriminate|exact IH].
Qed.

(** A failed attempt that has retries left: the busy flag is lowered, the
    timer is set, and the next attempt starts when it fires. *)
Lemma makeApiCall_retry (s : settled) (script : list settled) (rc : Z)
  (st : AppState) :
  failing a s = true -> rc < maxRetries ->
  makeApiCall a (s :: script) rc st
  = let o := makeApiCall a script (rc + 1) (setBusy a false st) in
    mkOutcome (final o)
              (Fetch a :: SetTimeout MakeApiCall (backoff (rc + 1)) :: trace o)
              (pending o).
Proof.
  intros Hf Hrc. cbn [makeApiCall].
  rewrite (attempt_retry a s rc st Hf Hrc). reflexivity.
Qed.

Lemma makeApiCall_give_up (s : settled) (script : list settled) (rc : Z)
  (st : AppState) :
  failing a s = true -> maxRetries <= rc ->
  exists e,
    makeApiCall a (s :: script) rc st
    = mkOutcome (setBusy a false (setError (Some (failure_message a)) st))
                [Fetch a; ConsoleError e] false.
Proof.
  intros Hf Hrc. cbn [makeApiCall].
  destruct (attempt_give_up a s rc st Hf Hrc) as [e ->].
  exists e. reflexivity.
Qed.

Lemma makeApiCall_success (s : settled) (script : list settled) (rc : Z)
  (st : AppState) :
  failing a s = false ->
  exists v effects,
    makeApiCall a (s :: script) rc st
    = mkOutcome (setBusy a false (setResult a v st)) (Fetch a :: effects) false
    /\ retry_delays effects = [].
Proof.
  intros Hf. cbn [makeApiCall].
  destruct (attempt_success a s rc st Hf) as (v & effects & -> & He).
  rewrite He. exists v, effects. split; [reflexivity|].
  apply schedules_retry_none, He.
Qed.

Lemma setBusy_twice (b : bool) (st : AppState) :
  setBusy a b (setBusy a b st) = setBusy a b st.
Proof. destruct a; reflexivity. Qed.

(** Four failed attempts in a row, of whatever kind: three retries, then the
    message. *)
Lemma makeApiCall_exhausted (s1 s2 s3 s4 : settled) (script : list settled)
  (st : AppState) :
  failing a s1 = true -> failing a s2 = true ->
  failing a s3 = true -> failing a s4 = true ->
  exists e,
    makeApiCall a (s1 :: s2 :: s3 :: s4 :: script) 0 st
    = mkOutcome (setBusy a false (setError (Some (failure_message a))
                                           (setBusy a false st)))
                [Fetch a; SetTimeout MakeApiCall 2000;
                 Fetch a; SetTimeout MakeApiCall 4000;
                 Fetch a; SetTimeout MakeApiCall 8000;
                 Fetch a; ConsoleError e]
                false.
Proof.
  intros H1 H2 H3 H4.
  destruct (makeApiCall_give_up s4 script 3 (setBusy a false st) H4) as [e He];
    [unfold maxRetries; lia|].
  exists e.
  rewrite (makeApiCall_retry s1 _ 0 st H1) by (unfold maxRetries; lia).
  rewrite (makeApiCall_retry s2 _ (0 + 1) _ H2) by (unfold maxRetries; lia).
  rewrite (makeApiCall_retry s3 _ (0 + 1 + 1) _ H3) by (unfold maxRetries; lia).
  rewrite !setBusy_twice.
  change (0 + 1 + 1 + 1) with 3. rewrite He. reflexivity.
Qed.

(** The waits of a loop that starts with [rc] retries made. *)
Lemma retry_delays_from (script : list settled) :
  forall (rc : Z) (st : AppState),
    0 <= rc <= 3 ->
    exists n,
      retry_delays (trace (makeApiCall a script rc st))
      = firstn n (map backoff (filter (fun k => rc <? k) [1; 2; 3])).
Proof.
  induction script as [|s script IH]; intros rc st Hrc.
  - exists 0%nat. reflexivity.
  - destruct (failing a s) eqn:Hf.
    + destruct (Z.eq_dec rc 3) as [->|Hne].
      * destruct (makeApiCall_give_up s script 3 st Hf) as [e ->];
          [unfold maxRetries; lia|].
        exists 0%nat. reflexivity.
      * rewrite (makeApiCall_retry s script rc st Hf) by (unfold maxRetries; lia).
        destruct (IH (rc + 1) (setBusy a false st)) as [n Hn]; [lia|].
        exists (S n). cbn [trace retry_delays retry_delay]. rewrite Hn.
        assert (rc = 0 \/ rc = 1 \/ rc = 2) as [->|[->| ->]] by lia;
          reflexivity.
    + destruct (makeApiCall_success s script rc st Hf) as (v & effects & -> & He).
      exists 0%nat. cbn [trace retry_delays retry_delay]. rewrite He. reflexivity.
Qed.

End RetryLoop.

(** ** Entering a coordinator *)

Lemma trim_eqb (s : string) :
  negb (Js.truthy (JStr (Js.trim s))) = String.eqb (Js.trim s) "".
Proof. cbn [Js.truthy]. apply negb_involutive. Qed.

Lemma begin_accepted (a : action) (st : AppState) :
  accepted a st -> snd (begin a st) = true.
Proof.
  intros [->|Hin]; [reflexivity|].
  apply String.eqb_neq in Hin.
  destruct a; cbn [begin]; unfold analyze_begin, summarize_begin, fact_begin;
    rewrite ?trim_eqb, ?Hin; reflexivity.
Qed.

Lemma begin_rejected (a : action) (st : AppState) :
  a <> Fact -> Js.trim (inputText st) = "" ->
  begin a st = (setError (Some (validation_message a)) st, false).
Proof.
  intros Ha Hin.
  destruct a; cbn [begin]; unfold analyze_begin, summarize_begin;
    rewrite ?trim_eqb, ?Hin; [reflexivity|reflexivity|congruence].
Qed.

(** A coordinator that goes on has raised its busy flag and emptied its
    result slot. *)
Lemma begin_slots (a : action) (st : AppState) :
  snd (begin a st) = true ->
  busy a (fst (begin a st)) = true /\ result a (fst (begin a st)) = JNull.
Proof.
  destruct a; cbn [begin]; unfold analyze_begin, summarize_begin, fact_begin;
    rewrite ?trim_eqb;
    try destruct (String.eqb (Js.trim (inputText st)) ""); cbn [snd fst];
    try discriminate; intros _; split; reflexivity.
Qed.

Lemma invoke_accepted (a : action) (script : list settled) (st : AppState) :
  accepted a st ->
  invoke a script st = makeApiCall a script 0 (fst (begin a st)).
Proof.
  intros H. apply begin_accepted in H. unfold invoke.
  destruct (begin a st) as [st1 proceed]. cbn [snd fst] in *. subst. reflexivity.
Qed.

(** The slots after the writes of a failed loop. *)
Lemma slots_after_failure (a : action) (st : AppState) :
  let st' := setBusy a false (setError (Some (failure_message a))
                                       (setBusy a false st)) in
  error st' = Some (failure_message a)
  /\ result a st' = result a st
  /\ busy a st' = false.
Proof. destruct a; repeat split. Qed.

(** ** Blank input *)

Section Blank.
Import Js.

Lemma strip_prefix_app (p s : string) : strip_prefix p (p ++ s) = Some s.
Proof.
  induction p as [|c p IH]; cbn; [reflexivity|].
  rewrite Ascii.eqb_refl. exact IH.
Qed.

Lemma strip_prefix_inv (p : string) :
  forall s r, strip_prefix p s = Some r -> s = p ++ r.
Proof.
  induction p as [|c p IH]; intros s r; cbn.
  - intros [= ->]. reflexivity.
  - destruct s as [|d s]; [discriminate|].
    destruct (Ascii.eqb_spec c d) as [->|_]; [|discriminate].
    intros H. apply IH in H. now subst.
Qed.

(** Of two prefixes of one string, one is a prefix of the other. *)
Lemma prefixes_comparable (p : string) :
  forall p' r r', p ++ r = p' ++ r' ->
    (exists x, strip_prefix p' p = Some x) \/ (exists x, strip_prefix p p' = Some x).
Proof.
  induction p as [|c p IH]; intros p' r r' H.
  - right. exists p'. reflexivity.
  - destruct p' as [|d p'].
    + left. eexists. reflexivity.
    + cbn in H. injection H as -> H. cbn. rewrite Ascii.eqb_refl.
      exact (IH _ _ _ H).
Qed.

Lemma app_cancel (p : string) : forall r r', p ++ r = p ++ r' -> r = r'.
Proof.
  induction p as [|c p IH]; intros r r' H; cbn in H; [exact H|].
  injection H as H. auto.
Qed.

Lemma length_app (p s : string) :
  String.length (p ++ s) = (String.length p + String.length s)%nat.
Proof. induction p as [|c p IH]; cbn; congruence. Qed.

Lemma whitespace_prefix_free : prefix_free whitespace = true.
Proof. vm_compute. reflexivity. Qed.

Lemma whitespace_same (w w' x : string) :
  In w whitespace -> In w' whitespace -> strip_prefix w' w = Some x -> w = w'.
Proof.
  intros Hw Hw' Hx.
  pose proof whitespace_prefix_free as H. unfold prefix_free in H.
  rewrite forallb_forall in H. specialize (H w Hw).
  rewrite forallb_forall in H. specialize (H w' Hw').
  rewrite Hx in H. apply andb_true_iff in H as [_ H].
  now apply String.eqb_eq in H.
Qed.

Lemma whitespace_nonempty (w : string) :
  In w whitespace -> (1 <= String.length w)%nat.
Proof.
  assert (H : forallb (fun w => (1 <=? String.length w)%nat) whitespace = true)
    by (vm_compute; reflexivity).
  rewrite forallb_forall in H. intros Hw. apply Nat.leb_le. auto.
Qed.

Lemma strip_first_found (ps : list string) (s : string) :
  forall r, strip_first ps s = Some r ->
    exists p, In p ps /\ strip_prefix p s = Some r.
Proof.
  induction ps as [|p ps IH]; intros r; cbn; [discriminate|].
  destruct (strip_prefix p s) as [r0|] eqn:Hp.
  - intros [= ->]. eauto.
  - intros H. destruct (IH _ H) as (p0 & Hin & Hp0). eauto.
Qed.

Lemma strip_first_some (ps : list string) (w s : string) :
  In w ps -> exists r, strip_first ps (w ++ s) = Some r.
Proof.
  induction ps as [|p ps IH]; intros Hin; [contradiction|]. cbn.
  destruct (strip_prefix p (w ++ s)) as [r|] eqn:Hp; [eauto|].
  destruct Hin as [->|Hin]; [|auto].
  rewrite strip_prefix_app in Hp. discriminate.
Qed.

Lemma strip_first_whitespace (w s : string) :
  In w whitespace -> strip_first whitespace (w ++ s) = Some s.
Proof.
  intros Hw. destruct (strip_first_some whitespace w s Hw) as [r Hr].
  rewrite Hr. f_equal.
  destruct (strip_first_found _ _ _ Hr) as (w' & Hw' & Hp).
  apply strip_prefix_inv in Hp.
  assert (w = w') as <-.
  { destruct (prefixes_comparable _ _ _ _ Hp) as [[x Hx]|[x Hx]].
    - exact (whitespace_same _ _ _ Hw Hw' Hx).
    - symmetry. exact (whitespace_same _ _ _ Hw' Hw Hx). }
  symmetry. exact (app_cancel _ _ _ Hp).
Qed.

Lemma trimStart_blank (s : string) :
  blank s ->
  forall fuel, (String.length s <= fuel)%nat ->
    trimStart_fuel whitespace fuel s = "".
Proof.
  unfold blank. induction 1 as [|w s Hw Hs IH]; intros fuel Hfuel.
  - destruct fuel; reflexivity.
  - pose proof (whitespace_nonempty w Hw) as Hlen.
    rewrite length_app in Hfuel.
    destruct fuel as [|fuel]; [lia|].
    cbn [trimStart_fuel]. rewrite (strip_first_whitespace w s Hw).
    apply IH. lia.
Qed.

(** A string of whitespace only is what [trim] empties. *)
Lemma trim_blank (s : string) : blank s -> trim s = "".
Proof.
  intros H. unfold trim, trimStart.
  rewrite (trimStart_blank s H) by lia. reflexivity.
Qed.

Lemma sapp_assoc (a b c : string) : (a ++ b) ++ c = a ++ b ++ c.
Proof. induction a as [|x a IH]; cbn; congruence. Qed.

Lemma sapp_empty (a : string) : a ++ "" = a.
Proof. induction a as [|x a IH]; cbn; congruence. Qed.

Lemma rev_onto_app (s : string) : forall acc, rev_onto s acc = srev s ++ acc.
Proof.
  unfold srev. induction s as [|c s IH]; intros acc; cbn; [reflexivity|].
  rewrite IH, (IH (String c "")), sapp_assoc. reflexivity.
Qed.

Lemma rev_onto_sapp (a b : string) :
  forall acc, rev_onto (a ++ b) acc = rev_onto b (rev_onto a acc).
Proof. induction a as [|c a IH]; intros acc; cbn; [reflexivity|apply IH]. Qed.

Lemma srev_app (a b : string) : srev (a ++ b) = srev b ++ srev a.
Proof. unfold srev at 1. rewrite rev_onto_sapp. apply rev_onto_app. Qed.

Lemma srev_involutive (a : string) : srev (srev a) = a.
Proof.
  induction a as [|c a IH]; [reflexivity|].
  change (String c a) with (String c "" ++ a) at 1.
  rewrite srev_app, srev_app, IH. reflexivity.
Qed.

Lemma made_of_app (ws : list string) (p q : string) :
  made_of ws p -> made_of ws q -> made_of ws (p ++ q).
Proof.
  induction 1 as [|w s Hw Hs IH]; intros Hq; [exact Hq|].
  rewrite sapp_assoc. apply made_more; auto.
Qed.

Lemma made_of_srev (ws : list string) (p : string) :
  made_of (map srev ws) p -> made_of ws (srev p).
Proof.
  induction 1 as [|w' s Hw Hs IH]; [constructor|].
  apply in_map_iff in Hw as (w & <- & Hw).
  rewrite srev_app, srev_involutive.
  apply made_of_app; [exact IH|].
  rewrite <- (sapp_empty w). apply made_more; [exact Hw|constructor].
Qed.

(** What [trimStart_fuel] removes is made of the sequences it was given. *)
Lemma trimStart_fuel_split (ws : list string) (fuel : nat) :
  forall s, exists p, made_of ws p /\ s = p ++ trimStart_fuel ws fuel s.
Proof.
  induction fuel as [|fuel IH]; intros s; cbn [trimStart_fuel].
  - exists "". split; [constructor|reflexivity].
  - destruct (strip_first ws s) as [r|] eqn:Hr.
    + destruct (strip_first_found _ _ _ Hr) as (w & Hw & Hp).
      apply strip_prefix_inv in Hp.
      destruct (IH r) as (p & Hmade & Hsplit).
      exists (w ++ p). split; [apply made_more; assumption|].
      rewrite sapp_assoc, <- Hsplit. exact Hp.
    + exists "". split; [constructor|reflexivity].
Qed.

Lemma trim_empty (s : string) : trim s = "" -> blank s.
Proof.
  unfold trim, trimEnd, trimStart. intros H.
  destruct (trimStart_fuel_split whitespace (String.length s) s)
    as (p & Hp & Hs).
  set (x := trimStart_fuel whitespace (String.length s) s) in *.
  destruct (trimStart_fuel_split (map srev whitespace) (String.length x) (srev x))
    as (p' & Hp' & Hx).
  set (y := trimStart_fuel (map srev whitespace) (String.length x) (srev x)) in *.
  assert (Hy : y = "").
  { rewrite <- (srev_involutive y), H. reflexivity. }
  rewrite Hy, sapp_empty in Hx.
  rewrite Hs. apply made_of_app; [exact Hp|].
  rewrite <- (srev_involutive x), Hx. apply made_of_srev, Hp'.
Qed.
(** The test [!inputText.trim()] holds of the blank strings and of no
    other. *)
Lemma trim_empty_iff_blank (s : string) : trim s = "" <-> blank s.
Proof. split; [apply trim_empty|apply trim_blank]. Qed.

End Blank.

(** A coordinator goes on to the network unless it tests the input and the
    input is blank. *)
Lemma accepted_iff_not_blank (a : action) (st : AppState) :
  accepted a st <-> a = Fact \/ ~ blank (inputText st).
Proof.
  unfold accepted. rewrite trim_empty_iff_blank. reflexivity.
Qed.

(** ** Retry bound and backoff *)

Lemma attempts_exhausted (a : action) (e : exn) :
  attempts [Fetch a; SetTimeout MakeApiCall 2000;
            Fetch a; SetTimeout MakeApiCall 4000;
            Fetch a; SetTimeout MakeApiCall 8000;
            Fetch a; ConsoleError e] = 4%nat.
Proof. reflexivity. Qed.

(** C2. When every attempt fails at the client layer (the fetch rejects or
    the status is not 2xx), a coordinator that went on to the network makes
    exactly 4 attempts, then stores its own error message; its result slot is
    null, and nothing is left pending. *)
Theorem C2_four_attempts_then_error (a : action) (st : AppState)
  (script : list settled)
  (Hin : accepted a st)
  (Hfail : Forall (fun s => client_failure s = true) script)
  (Hlen : (4 <= List.length script)%nat) :
  let o := invoke a script st in
  attempts (trace o) = 4%nat
  /\ retry_delays (trace o) = [2000; 4000; 8000]
  /\ pending o = false
  /\ error (final o) = Some (failure_message a)
  /\ result a (final o) = JNull
  /\ busy a (final o) = false.
Proof.
  destruct script as [|s1 [|s2 [|s3 [|s4 script]]]]; cbn in Hlen; try lia.
  inversion_clear Hfail as [|? ? H1 Hfail1].
  inversion_clear Hfail1 as [|? ? H2 Hfail2].
  inversion_clear Hfail2 as [|? ? H3 Hfail3].
  inversion_clear Hfail3 as [|? ? H4 _].
  apply (client_failure_failing a) in H1, H2, H3, H4.
  cbv zeta. rewrite (invoke_accepted a _ st Hin).
  destruct (makeApiCall_exhausted a s1 s2 s3 s4 script (fst (begin a st))
              H1 H2 H3 H4) as [e ->].
  cbn [trace final pending]. rewrite attempts_exhausted.
  destruct (slots_after_failure a (fst (begin a st))) as (He & Hr & Hb).
  destruct (begin_slots a st (begin_accepted a st Hin)) as [_ Hnull].
  repeat split; try assumption. congruence.
Qed.

Lemma C2_witness :
  let a := Fact in
  let st := initial in
  let script := [Samples.http500; Samples.http500; Samples.http500;
                 Samples.http500] in
  accepted a st
  /\ Forall (fun s => client_failure s = true) script
  /\ (4 <= List.length script)%nat
  /\ attempts (trace (invoke a script st)) = 4%nat
  /\ final (invoke a script st)
     = mkApp "" JNull false (Some "Failed to get a fact. Please try again.")
             JNull false JNull false.
Proof.
  cbv zeta.
  assert (Hin : accepted Fact initial) by (left; reflexivity).
  assert (Hfail : Forall (fun s => client_failure s = true)
                    [Samples.http500; Samples.http500; Samples.http500;
                     Samples.http500])
    by (repeat constructor).
  assert (Hlen : (4 <= List.length [Samples.http500; Samples.http500;
                                     Samples.http500; Samples.http500])%nat)
    by (simpl; lia).
  refine (conj Hin (conj Hfail (conj Hlen (conj _ _)))).
  - exact (proj1 (C2_four_attempts_then_error Fact initial _ Hin Hfail Hlen)).
  - reflexivity.
Defined.

(** C8. The wait is a function of the count of retries alone:
    [baseDelay * 2^k] with [baseDelay = 1000], hence 2000, 4000 and 8000 for
    k = 1, 2, 3; in every run of every coordinator the wait before the k-th
    retry is that of k, there are at most three of them and none exceeds
    8000 ms, which is the wait before the last attempt of a run that fails
    throughout. *)
Theorem C8_backoff_delays :
  baseDelay = 1000
  /\ (forall k : nat, backoff (Z.of_nat k) = 1000 * 2 ^ Z.of_nat k)
  /\ backoff 1 = 2000 /\ backoff 2 = 4000 /\ backoff 3 = 8000
  /\ (forall (a : action) (script : list settled) (st : AppState),
        exists n,
          retry_delays (trace (invoke a script st))
          = firstn n [backoff 1; backoff 2; backoff 3])
  /\ (forall (a : action) (script : list settled) (st : AppState),
        Forall (fun d => d <= 8000) (retry_delays (trace (invoke a script st))))
  /\ (forall (a : action) (st : AppState),
        retry_delays
          (trace (makeApiCall a [Rejected; Rejected; Rejected; Rejected] 0 st))
        = [2000; 4000; 8000]).
Proof.
  assert (Hpre : forall a script st, exists n,
             retry_delays (trace (invoke a script st))
             = firstn n [backoff 1; backoff 2; backoff 3]).
  { intros a script st. unfold invoke.
    destruct (begin a st) as [st1 [|]].
    - destruct (retry_delays_from a script 0 st1) as [n Hn]; [lia|].
      exists n. exact Hn.
    - exists 0%nat. reflexivity. }
  repeat split; try reflexivity; try exact Hpre.
  - intros a script st. destruct (Hpre a script st) as [n Hn]. rewrite Hn.
    destruct n as [|[|[|[|n]]]]; cbn [firstn]; repeat constructor;
      vm_compute; discriminate.
  - intros a st. destruct a; reflexivity.
Qed.

(** ** Validation of the input *)

(** [makeApiCall] begins with its [fetch]. *)
Lemma makeApiCall_starts (a : action) (script : list settled) (rc : Z)
  (st : AppState) :
  exists t, trace (makeApiCall a script rc st) = Fetch a :: t.
Proof.
  destruct script as [|s script]; cbn [makeApiCall]; [eexists; reflexivity|].
  destruct (attempt a s rc st) as [[st1 rc1] effects].
  destruct (schedules_retry effects); cbn [trace]; eexists; reflexivity.
Qed.

(** C9. On an input that is empty or made of whitespace only, the analyze
    and the summarize coordinators store their fixed validation message and
    return without any call of the network; the fact coordinator tests no
    input and calls the network in every state. *)
Theorem C9_blank_input_no_network (st : AppState) (script : list settled)
  (Hblank : blank (inputText st)) :
  (error (final (analyzeContent script st))
     = Some "Please enter some text to analyze."
   /\ trace (analyzeContent script st) = []
   /\ pending (analyzeContent script st) = false)
  /\ (error (final (summarizeContent script st))
        = Some "Please enter some text to summarize."
      /\ trace (summarizeContent script st) = []
      /\ pending (summarizeContent script st) = false)
  /\ (forall (st' : AppState) (script' : list settled),
        exists t, trace (getMisinformationFact script' st') = Fetch Fact :: t).
Proof.
  apply trim_blank in Hblank.
  unfold analyzeContent, summarizeContent, getMisinformationFact, invoke.
  rewrite (begin_rejected Analyze st) by (congruence || assumption).
  rewrite (begin_rejected Summarize st) by (congruence || assumption).
  repeat split.
  intros st' script'. cbn [begin fact_begin]. apply makeApiCall_starts.
Qed.

Lemma blank_three_spaces : blank "   ".
Proof.
  change (blank (" " ++ " " ++ " " ++ "")).
  repeat (apply made_more; [vm_compute; tauto|]). apply made_empty.
Defined.

Lemma C9_witness :
  blank (inputText (Samples.typed "   "))
  /\ error (final (analyzeContent [Samples.http500] (Samples.typed "   ")))
     = Some "Please enter some text to analyze."
  /\ trace (analyzeContent [Samples.http500] (Samples.typed "   ")) = []
  /\ trace (summarizeContent [Samples.http500] (Samples.typed "   ")) = [].
Proof.
  pose proof (C9_blank_input_no_network (Samples.typed "   ") [Samples.http500]
                blank_three_spaces) as [[He [Ht _]] [[_ [Ht' _]] _]].
  repeat split; try assumption. exact blank_three_spaces.
Defined.

(** C10. When the analyze or the summarize coordinator rejects a blank
    input, the error slot is the only slot written: the state is the old one
    with the validation message in it, so every busy flag keeps its value
    (false stays false) and every result slot keeps the result of an earlier
    operation, next to the new message. *)
Theorem C10_rejection_writes_error_only (a : action) (st : AppState)
  (script : list settled)
  (Ha : a = Analyze \/ a = Summarize)
  (Hblank : blank (inputText st)) :
  let st' := final (invoke a script st) in
  st' = setError (Some (validation_message a)) st
  /\ error st' = Some (validation_message a)
  /\ (loading st' = loading st /\ isSummarizing st' = isSummarizing st
      /\ isGettingFact st' = isGettingFact st)
  /\ (results st' = results st /\ summary st' = summary st
      /\ misinformationFact st' = misinformationFact st)
  /\ inputText st' = inputText st.
Proof.
  apply trim_blank in Hblank. cbv zeta. unfold invoke.
  rewrite (begin_rejected a st) by (destruct Ha; subst; congruence || assumption).
  repeat split.
Qed.

Lemma C10_witness :
  let earlier :=
    JObj [("credibilityScore", JNum "15"); ("breakdown", JStr "...")] in
  let st := setResults earlier (Samples.typed "   ") in
  (Analyze = Analyze \/ Analyze = Summarize)
  /\ blank (inputText st)
  /\ results (final (invoke Analyze [] st)) = earlier
  /\ error (final (invoke Analyze [] st))
     = Some "Please enter some text to analyze."
  /\ loading (final (invoke Analyze [] st)) = false.
Proof.
  cbv zeta.
  pose proof (C10_rejection_writes_error_only Analyze
                (setResults
                   (JObj [("credibilityScore", JNum "15");
                          ("breakdown", JStr "...")])
                   (Samples.typed "   "))
                [] (or_introl eq_refl) blank_three_spaces)
    as (_ & He & (Hl & _) & (Hr & _) & _).
  exact (conj (or_introl eq_refl)
              (conj blank_three_spaces (conj Hr (conj He Hl)))).
Defined.

(** ** Failures of interpretation in [analyzeContent] *)

Lemma analyze_begin_accepted (st : AppState) :
  accepted Analyze st ->
  fst (begin Analyze st) = setError None (setResults JNull (setLoading true st)).
Proof.
  intros [H|H]; [discriminate|].
  apply String.eqb_neq in H. cbn [begin]. unfold analyze_begin.
  rewrite trim_eqb, H. reflexivity.
Qed.

Lemma parse_empty : Json.parse "" = None.
Proof. reflexivity. Qed.

(** A 2xx answer without the text, or with a text that is not JSON, makes
    the [try] block of [analyzeContent] throw. *)
Lemma analyze_failing_interpretation (r : Response) (result : jsval) :
  ok r = true -> body r = Some result ->
  (text_of result = Normal JUndefined
   \/ exists t, text_of result = Normal (JStr t) /\ Json.parse t = None) ->
  failing Analyze (Fulfilled r) = true.
Proof.
  intros Hok Hbody Hint. unfold failing. cbn [try_block].
  unfold analyze_try, bind, receive. rewrite Hok, Hbody. cbn [negb].
  destruct Hint as [->|(t & -> & Hparse)]; [reflexivity|].
  destruct (negb (Js.truthy (JStr t))); [reflexivity|].
  unfold Json.JSON_parse. cbn [Json.ToString]. rewrite Hparse. reflexivity.
Qed.

Lemma analyze_try_parsed (r : Response) (result : jsval) (t : string)
  (v : jsval) (st : AppState) :
  ok r = true -> body r = Some result ->
  text_of result = Normal (JStr t) -> Json.parse t = Some v ->
  analyze_try (Fulfilled r) st
  = Normal (setResults v st, [SetTimeout ScrollIntoView 100]).
Proof.
  intros Hok Hbody Htext Hv.
  assert (Ht : String.eqb t "" = false).
  { destruct t; [rewrite parse_empty in Hv; discriminate|reflexivity]. }
  unfold analyze_try, bind, receive.
  rewrite Hok. cbn [negb]. rewrite Hbody. cbv beta iota. rewrite Htext.
  cbv beta iota. cbn [Js.truthy]. rewrite Ht. cbn [negb].
  unfold Json.JSON_parse. cbn [Json.ToString]. rewrite Hv. reflexivity.
Qed.

(** C1, as the code has it.  A first answer that is received (2xx) but
    cannot be interpreted (the text is absent, or is not JSON) is not
    returned: no error is stored, the 2000 ms timer is set and the second
    attempt follows, as after a Transport or HttpStatus failure.  Failures of
    every kind are retried; the message is stored when the fourth attempt in
    a row has failed. *)
Theorem C1_interpretation_failure_is_retried (st : AppState) (r : Response)
  (result : jsval) (rest : list settled)
  (Hin : accepted Analyze st)
  (Hok : ok r = true)
  (Hbody : body r = Some result)
  (Hint : text_of result = Normal JUndefined
          \/ exists t, text_of result = Normal (JStr t) /\ Json.parse t = None) :
  let st1 := setLoading false (fst (begin Analyze st)) in
  let o := analyzeContent (Fulfilled r :: rest) st in
  let o' := makeApiCall Analyze rest 1 st1 in
  error st1 = None
  /\ trace o = Fetch Analyze :: SetTimeout MakeApiCall 2000 :: trace o'
  /\ final o = final o'
  /\ pending o = pending o'
  /\ (forall s2 s3 s4 rest',
        rest = s2 :: s3 :: s4 :: rest' ->
        failing Analyze s2 = true -> failing Analyze s3 = true ->
        failing Analyze s4 = true ->
        attempts (trace o) = 4%nat
        /\ error (final o) = Some "Failed to get a response. Please try again.").
Proof.
  pose proof (analyze_failing_interpretation r result Hok Hbody Hint) as Hf.
  cbv zeta. unfold analyzeContent. rewrite (invoke_accepted Analyze _ st Hin).
  split; [rewrite (analyze_begin_accepted st Hin); reflexivity|].
  split; [|split; [|split]].
  - rewrite (makeApiCall_retry Analyze _ rest 0 _ Hf) by (unfold maxRetries; lia).
    reflexivity.
  - rewrite (makeApiCall_retry Analyze _ rest 0 _ Hf) by (unfold maxRetries; lia).
    reflexivity.
  - rewrite (makeApiCall_retry Analyze _ rest 0 _ Hf) by (unfold maxRetries; lia).
    reflexivity.
  - intros s2 s3 s4 rest' -> H2 H3 H4.
    destruct (makeApiCall_exhausted Analyze (Fulfilled r) s2 s3 s4 rest'
                (fst (begin Analyze st)) Hf H2 H3 H4) as [e ->].
    split; reflexivity.
Qed.

Lemma C1_witness :
  let st := Samples.typed Samples.headline in
  let r := mkResponse 200 "OK" (Some (JObj [])) in
  accepted Analyze st
  /\ ok r = true
  /\ body r = Some (JObj [])
  /\ text_of (JObj []) = Normal JUndefined
  /\ trace (analyzeContent [Fulfilled r] st)
     = [Fetch Analyze; SetTimeout MakeApiCall 2000; Fetch Analyze].
Proof.
  cbv zeta.
  assert (Hin : accepted Analyze (Samples.typed Samples.headline))
    by (right; vm_compute; discriminate).
  refine (conj Hin (conj eq_refl (conj eq_refl (conj eq_refl _)))).
  exact (proj1 (proj2 (C1_interpretation_failure_is_retried
                         (Samples.typed Samples.headline)
                         (mkResponse 200 "OK" (Some (JObj []))) (JObj []) []
                         Hin eq_refl eq_refl (or_introl eq_refl)))).
Defined.

(** C1 as it is written fails: the first answer is a 200 whose body has no
    text; the operation waits 2000 ms, attempts again and ends with the
    result of the second answer. *)
Lemma C1_counterexample :
  let first := Samples.ok200 (JObj []) in
  let second := Samples.ok200 (Samples.with_text (JStr Samples.sample_analysis)) in
  let o := analyzeContent [first; second] (Samples.typed Samples.headline) in
  receive first = Normal (JObj [])
  /\ text_of (JObj []) = Normal JUndefined
  /\ trace o = [Fetch Analyze; SetTimeout MakeApiCall 2000;
                Fetch Analyze; SetTimeout ScrollIntoView 100]
  /\ attempts (trace o) <> 1%nat
  /\ retry_delays (trace o) <> []
  /\ error (final o) = None
  /\ results (final o)
     = JObj [("credibilityScore", JNum "15"); ("breakdown", JStr "...")].
Proof.
  cbv zeta. repeat split; try reflexivity; vm_compute; discriminate.
Qed.

(** C6, as the code has it.  The text of a 2xx answer to the analyze
    operation, once parsed, is stored as the result as it is: whatever value
    it denotes, no field is examined.  A text that is not JSON is a failed
    attempt like any other: the first one sets the 2000 ms timer and no
    error. *)
Theorem C6_parsed_text_is_stored_unchecked (st : AppState) (r : Response)
  (result : jsval) (t : string) (rest : list settled)
  (Hin : accepted Analyze st)
  (Hok : ok r = true)
  (Hbody : body r = Some result)
  (Htext : text_of result = Normal (JStr t)) :
  let o := analyzeContent (Fulfilled r :: rest) st in
  (forall v, Json.parse t = Some v ->
     results (final o) = v
     /\ error (final o) = None
     /\ loading (final o) = false
     /\ trace o = [Fetch Analyze; SetTimeout ScrollIntoView 100]
     /\ pending o = false)
  /\ (Json.parse t = None ->
      exists t',
        trace o = Fetch Analyze :: SetTimeout MakeApiCall 2000 :: Fetch Analyze :: t').
Proof.
  cbv zeta. unfold analyzeContent. rewrite (invoke_accepted Analyze _ st Hin).
  rewrite (analyze_begin_accepted st Hin). split.
  - intros v Hv.
    cbn [makeApiCall attempt]. unfold analyze_attempt.
    rewrite (analyze_try_parsed r result t v _ Hok Hbody Htext Hv).
    repeat split.
  - intros Hnone.
    assert (Hf : failing Analyze (Fulfilled r) = true)
      by (apply (analyze_failing_interpretation r result); eauto).
    rewrite (makeApiCall_retry Analyze _ rest 0 _ Hf) by (unfold maxRetries; lia).
    cbv zeta. cbn [trace].
    destruct (makeApiCall_starts Analyze rest (0 + 1)
                (setBusy Analyze false
                   (setError None (setResults JNull (setLoading true st)))))
      as [t' ->].
    exists t'. reflexivity.
Qed.

Lemma C6_witness :
  let st := Samples.typed Samples.headline in
  let result := Samples.with_text (JStr Samples.sample_wrong_type) in
  let r := mkResponse 200 "OK" (Some result) in
  accepted Analyze st
  /\ ok r = true
  /\ body r = Some result
  /\ text_of result = Normal (JStr Samples.sample_wrong_type)
  /\ results (final (analyzeContent [Fulfilled r] st))
     = JObj [("credibilityScore", JStr "high"); ("breakdown", JStr "...")].
Proof.
  cbv zeta.
  assert (Hin : accepted Analyze (Samples.typed Samples.headline))
    by (right; vm_compute; discriminate).
  refine (conj Hin (conj eq_refl (conj eq_refl (conj eq_refl _)))).
  exact (proj1 (proj1 (C6_parsed_text_is_stored_unchecked
                         (Samples.typed Samples.headline)
                         (mkResponse 200 "OK"
                            (Some (Samples.with_text
                                     (JStr Samples.sample_wrong_type))))
                         _ Samples.sample_wrong_type [] Hin eq_refl eq_refl
                         eq_refl)
                      _ Examples.parse_sample_wrong_type)).
Defined.

(** C6 as it is written fails twice: the text
    [{"credibilityScore": "high", "breakdown": "..."}] is a success, stored
    with the string in the place of the number; and a text that is not JSON
    is retried. *)
Lemma C6_counterexample :
  let wrong := Samples.ok200 (Samples.with_text (JStr Samples.sample_wrong_type)) in
  let garbled := Samples.ok200 (Samples.with_text (JStr "high")) in
  let o := analyzeContent [wrong] (Samples.typed Samples.headline) in
  let o' := analyzeContent [garbled; wrong] (Samples.typed Samples.headline) in
  (results (final o)
     = JObj [("credibilityScore", JStr "high"); ("breakdown", JStr "...")]
   /\ error (final o) = None
   /\ trace o = [Fetch Analyze; SetTimeout ScrollIntoView 100]
   /\ pending o = false)
  /\ (Json.parse "high" = None
      /\ trace o' = [Fetch Analyze; SetTimeout MakeApiCall 2000;
                     Fetch Analyze; SetTimeout ScrollIntoView 100]
      /\ error (final o') = None).
Proof. cbv zeta. repeat split. Qed.

(** ** The busy flag during the retries *)

(** C3, at a failing input.  Each coordinator is invoked, its first fetch is
    answered by a 500 and the second is not answered yet.  The [finally]
    block of the first attempt has already lowered the busy flag: the retry
    is pending (first its timer, then its fetch) while the flag is false and
    neither a result nor an error is stored. *)
Theorem C3_busy_lowered_while_retry_pending :
  let st := Samples.typed Samples.headline in
  (forall a : action,
     let o := invoke a [Samples.http500] st in
     trace o = [Fetch a; SetTimeout MakeApiCall 2000; Fetch a]
     /\ pending o = true
     /\ busy a (final o) = false
     /\ result a (final o) = JNull
     /\ error (final o) = None)
  /\ (forall a : action,
        exists w,
          exec (mkWorld st [] []) [Click a; Settles a 0 Samples.http500] = Some w
          /\ chains w = [mkChain a 1 AwaitingTimer]
          /\ busy a (app w) = false
          /\ result a (app w) = JNull
          /\ error (app w) = None).
Proof.
  cbv zeta. split; intros a; destruct a.
  1-3: repeat split.
  all: eexists; split; [vm_compute; reflexivity|repeat split].
Qed.

(** ** Result and error after an operation *)

(** A retry loop that starts with the error slot and its result slot empty
    ends with one of them empty. *)
Lemma makeApiCall_exclusive (a : action) (script : list settled) :
  forall (rc : Z) (st : AppState),
    error st = None -> result a st = JNull ->
    error (final (makeApiCall a script rc st)) = None
    \/ result a (final (makeApiCall a script rc st)) = JNull.
Proof.
  induction script as [|s script IH]; intros rc st He Hr; [left; exact He|].
  destruct (failing a s) eqn:Hf.
  - destruct (Z_lt_dec rc maxRetries) as [Hrc|Hrc].
    + rewrite (makeApiCall_retry a s script rc st Hf Hrc). cbv zeta. cbn [final].
      apply IH; destruct a; assumption.
    + destruct (makeApiCall_give_up a s script rc st Hf) as [e ->]; [lia|].
      right. cbn [final]. destruct a; exact Hr.
  - destruct (makeApiCall_success a s script rc st Hf) as (v & effects & -> & _).
    left. cbn [final]. destruct a; exact He.
Qed.

(** [analyzeContent] and [getMisinformationFact] empty both slots before
    the network is called, and complete with one of them empty. *)
Lemma analyze_fact_exclusive (a : action) (script : list settled)
  (st : AppState) :
  a <> Summarize -> accepted a st ->
  (error (fst (begin a st)) = None /\ result a (fst (begin a st)) = JNull)
  /\ (error (final (invoke a script st)) = None
      \/ result a (final (invoke a script st)) = JNull).
Proof.
  intros Ha Hin.
  assert (Hclear : error (fst (begin a st)) = None
                   /\ result a (fst (begin a st)) = JNull).
  { destruct a; [|congruence|split; reflexivity].
    rewrite (analyze_begin_accepted st Hin). split; reflexivity. }
  split; [exact Hclear|].
  rewrite (invoke_accepted a script st Hin).
  apply makeApiCall_exclusive; apply Hclear.
Qed.

(** C5, at a failing input.  The fact coordinator fails four times and
    leaves its message; then the summarize coordinator is invoked and
    succeeds at once.  [summarizeContent] does not call [setError(null)] as
    [analyzeContent] and [getMisinformationFact] do: the message is still
    there when the network is called and when the operation has completed,
    next to the summary. *)
Theorem C5_summarize_keeps_prior_error :
  let st0 :=
    final (getMisinformationFact
             [Samples.http500; Samples.http500; Samples.http500; Samples.http500]
             (Samples.typed "abc")) in
  let o := summarizeContent
             [Samples.ok200 (Samples.with_text (JStr "A summary."))] st0 in
  error st0 = Some "Failed to get a fact. Please try again."
  /\ summarize_begin st0 = (setSummary JNull (setIsSummarizing true st0), true)
  /\ error (fst (summarize_begin st0))
     = Some "Failed to get a fact. Please try again."
  /\ error (fst (analyze_begin st0)) = None
  /\ error (fst (fact_begin st0)) = None
  /\ pending o = false
  /\ summary (final o) = JStr "A summary."
  /\ error (final o) = Some "Failed to get a fact. Please try again.".
Proof. cbv zeta. repeat split. Qed.

(** ** A plain-text answer without the text *)

(** The two plain-text coordinators store whatever is at the place of the
    text, [undefined] when nothing is there. *)
Lemma plain_text_stored (a : action) (st : AppState) (r : Response)
  (result0 t : jsval) (rest : list settled) :
  a <> Analyze -> accepted a st ->
  ok r = true -> body r = Some result0 -> text_of result0 = Normal t ->
  let o := invoke a (Fulfilled r :: rest) st in
  result a (final o) = t
  /\ error (final o) = error (fst (begin a st))
  /\ busy a (final o) = false
  /\ trace o = [Fetch a]
  /\ pending o = false.
Proof.
  intros Ha Hin Hok Hbody Htext. cbv zeta.
  rewrite (invoke_accepted a _ st Hin). cbn [makeApiCall].
  destruct a; [congruence| |]; cbn [attempt];
    unfold summarize_attempt, summarize_try, fact_attempt, fact_try, bind, receive;
    rewrite Hok; cbn [negb]; rewrite Hbody; cbv beta iota; rewrite Htext;
    repeat split.
Qed.

(** C7, at a failing input.  The answer is a 200 whose body is [{}], so
    that there is nothing at [candidates[0].content.parts[0].text].  The
    test [if (!jsonText) throw ...] of [analyzeContent] has no counterpart in
    the two plain-text coordinators: they store [undefined] as the result,
    set no error and end at once. *)
Theorem C7_plain_text_absent_is_silent :
  let st := Samples.typed "abc" in
  let s := Samples.ok200 (JObj []) in
  text_of (JObj []) = Normal JUndefined
  /\ analyze_try s st = Throw InvalidStructure
  /\ (let o := summarizeContent [s] st in
      trace o = [Fetch Summarize] /\ pending o = false
      /\ summary (final o) = JUndefined /\ error (final o) = None
      /\ isSummarizing (final o) = false)
  /\ (let o := getMisinformationFact [s] st in
      trace o = [Fetch Fact] /\ pending o = false
      /\ misinformationFact (final o) = JUndefined /\ error (final o) = None
      /\ isGettingFact (final o) = false).
Proof. cbv zeta. repeat split. Qed.

(** ** The slots of the other coordinators *)

Section Frame.

Variables a b : action.
Hypothesis Hab : a <> b.

Lemma setters_frame (v : jsval) (f : bool) (e : option string) (st : AppState) :
  (busy a (setBusy b f st) = busy a st /\ result a (setBusy b f st) = result a st)
  /\ (busy a (setResult b v st) = busy a st
      /\ result a (setResult b v st) = result a st)
  /\ (busy a (setError e st) = busy a st /\ result a (setError e st) = result a st).
Proof. destruct a, b; try congruence; repeat split. Qed.

Lemma begin_frame (st : AppState) :
  busy a (fst (begin b st)) = busy a st
  /\ result a (fst (begin b st)) = result a st.
Proof.
  destruct a, b; try congruence; cbn [begin];
    unfold analyze_begin, summarize_begin, fact_begin;
    try destruct (negb (Js.truthy (JStr (Js.trim (inputText st)))));
    split; reflexivity.
Qed.

Lemma attempt_frame (s : settled) (rc : Z) (st : AppState) :
  busy a (fst (fst (attempt b s rc st))) = busy a st
  /\ result a (fst (fst (attempt b s rc st))) = result a st.
Proof.
  rewrite attempt_unfold.
  destruct (failing b s) eqn:Hf.
  - destruct (try_block_throws b s st Hf) as [e ->].
    destruct (rc <? maxRetries); cbn [fst].
    + apply (setters_frame JNull false None st).
    + destruct (setters_frame JNull false (Some (failure_message b)) st)
        as (_ & _ & He1 & He2).
      destruct (setters_frame JNull false None
                  (setError (Some (failure_message b)) st)) as ((Hb1 & Hb2) & _).
      split; congruence.
  - destruct (try_block_returns b s st Hf) as (v & effects & -> & _).
    cbn [fst].
    destruct (setters_frame v false None st) as (_ & (Hr1 & Hr2) & _).
    destruct (setters_frame v false None (setResult b v st)) as ((Hb1 & Hb2) & _).
    split; congruence.
Qed.

Lemma makeApiCall_frame (script : list settled) :
  forall (rc : Z) (st : AppState),
    busy a (final (makeApiCall b script rc st)) = busy a st
    /\ result a (final (makeApiCall b script rc st)) = result a st.
Proof.
  induction script as [|s script IH]; intros rc st; cbn [makeApiCall].
  - split; reflexivity.
  - pose proof (attempt_frame s rc st) as [Hb Hr].
    destruct (attempt b s rc st) as [[st' rc'] effects]. cbn [fst] in Hb, Hr.
    destruct (schedules_retry effects); cbn [final].
    + destruct (IH rc' st') as [Hb' Hr']. split; congruence.
    + split; assumption.
Qed.

Lemma invoke_frame (script : list settled) (st : AppState) :
  busy a (final (invoke b script st)) = busy a st
  /\ result a (final (invoke b script st)) = result a st.
Proof.
  unfold invoke. pose proof (begin_frame st) as [Hb Hr].
  destruct (begin b st) as [st1 [|]]; cbn [fst] in Hb, Hr.
  - destruct (makeApiCall_frame script 0 st1). split; congruence.
  - split; assumption.
Qed.

End Frame.

(** One input that does not belong to [a] leaves the busy flag and the
    result slot of [a] as they are. *)
Lemma step_frame (a : action) (w w' : world) (e : input) :
  input_owner e <> Some a -> step w e = Some w' ->
  busy a (app w') = busy a (app w) /\ result a (app w') = result a (app w).
Proof.
  intros Hown Hstep. destruct e as [text|b|b i s|b i]; cbn [step] in Hstep.
  - injection Hstep as <-. cbn [app]. destruct a; split; reflexivity.
  - assert (Hab : a <> b) by (intros ->; apply Hown; reflexivity).
    pose proof (begin_frame a b Hab (app w)) as H.
    destruct (begin b (app w)) as [st1 [|]]; injection Hstep as <-; exact H.
  - assert (Hab : a <> b) by (intros ->; apply Hown; reflexivity).
    destruct (chain_at w b i AwaitingFetch) as [t|]; [|discriminate].
    pose proof (attempt_frame a b Hab s (retryCount t) (app w)) as H.
    destruct (attempt b s (retryCount t) (app w)) as [[st' rc'] effects].
    injection Hstep as <-. exact H.
  - destruct (chain_at w b i AwaitingTimer) as [t|]; [|discriminate].
    injection Hstep as <-. split; reflexivity.
Qed.

Lemma exec_frame (a : action) (es : list input) :
  forall w w',
    Forall (fun e => input_owner e <> Some a) es -> exec w es = Some w' ->
    busy a (app w') = busy a (app w) /\ result a (app w') = result a (app w).
Proof.
  induction es as [|e es IH]; intros w w' Hes Hexec; cbn [exec] in Hexec.
  - injection Hexec as <-. split; reflexivity.
  - inversion_clear Hes as [|? ? He Hes'].
    destruct (step w e) as [w1|] eqn:Hstep; [|discriminate].
    destruct (step_frame a w w1 e He Hstep) as [Hb Hr].
    destruct (IH w1 w' Hes' Hexec) as [Hb' Hr']. split; congruence.
Qed.

(** C4, as the code has it.  Each coordinator has a busy flag and a result
    slot of its own: an invocation of another coordinator, run to its end or
    interleaved step by step with operations in flight of any coordinator
    but this one, leaves both as they are.  The error slot is not among
    them: the component has one, written by all three. *)
Theorem C4_busy_and_result_are_private (a b : action) (Hab : a <> b) :
  (forall (script : list settled) (st : AppState),
     busy a (final (invoke b script st)) = busy a st
     /\ result a (final (invoke b script st)) = result a st)
  /\ (forall (es : list input) (w w' : world),
        Forall (fun e => input_owner e <> Some a) es ->
        exec w es = Some w' ->
        busy a (app w') = busy a (app w) /\ result a (app w') = result a (app w)).
Proof.
  split.
  - intros script st. exact (invoke_frame a b Hab script st).
  - intros es w w'. exact (exec_frame a es w w').
Qed.

Lemma C4_witness :
  let st :=
    final (analyzeContent
             [Samples.ok200 (Samples.with_text (JStr Samples.sample_analysis))]
             (Samples.typed Samples.headline)) in
  Analyze <> Fact
  /\ results (final (getMisinformationFact [Samples.http500] st)) = results st
  /\ loading (final (getMisinformationFact [Samples.http500] st)) = loading st.
Proof.
  cbv zeta.
  assert (Hab : Analyze <> Fact) by discriminate.
  pose proof (proj1 (C4_busy_and_result_are_private Analyze Fact Hab)
                [Samples.http500]
                (final (analyzeContent
                          [Samples.ok200
                             (Samples.with_text (JStr Samples.sample_analysis))]
                          (Samples.typed Samples.headline)))) as [Hb Hr].
  exact (conj Hab (conj Hr Hb)).
Defined.

(** C4 as it is written fails on the error slot.  The summarize coordinator
    fails four times and reports in the error slot; the fact coordinator is
    then invoked and, before any answer, has emptied that slot. *)
Lemma C4_counterexample :
  let st :=
    final (summarizeContent [Rejected; Rejected; Rejected; Rejected]
                            (Samples.typed "abc")) in
  let o := getMisinformationFact [] st in
  error st = Some "Failed to get a summary. Please try again."
  /\ error (final o) = None
  /\ error (final o) <> error st.
Proof. cbv zeta. repeat split. vm_compute. discriminate. Qed.

(** ** An operation run alone is one run of the event loop *)

Lemma action_eqb_refl (a : action) : action_eqb a a = true.
Proof. destruct a; reflexivity. Qed.

Lemma nth_error_set_nth {A : Type} (x : A) (l : list A) :
  forall i y, nth_error l i = Some y -> nth_error (set_nth i x l) i = Some x.
Proof.
  induction l as [|z l IH]; intros [|i] y; cbn; try discriminate; eauto.
Qed.

Lemma exec_schedule (a : action) (i : nat) (script : list settled) :
  forall (rc : Z) (st : AppState) (ts : list chain) (lg : list effect),
    nth_error ts i = Some (mkChain a rc AwaitingFetch) ->
    exists w',
      exec (mkWorld st ts (lg ++ [Fetch a])%list) (schedule a i script rc st) = Some w'
      /\ app w' = final (makeApiCall a script rc st)
      /\ log w' = (lg ++ trace (makeApiCall a script rc st))%list.
Proof.
  induction script as [|s script IH]; intros rc st ts lg Hi.
  - eexists. cbn. repeat split.
  - cbn [schedule makeApiCall].
    destruct (attempt a s rc st) as [[st' rc'] effects] eqn:Hatt.
    cbn [exec step]. unfold chain_at. cbn [chains]. rewrite Hi.
    cbn [owner at_stage retryCount stage_eqb app log].
    rewrite action_eqb_refl.
    cbn [andb owner at_stage retryCount app log chains]. rewrite Hatt.
    destruct (schedules_retry effects).
    + cbn [exec step]. unfold chain_at. cbn [chains].
      rewrite (nth_error_set_nth _ ts i _ Hi).
      cbn [owner at_stage retryCount stage_eqb app log].
      rewrite action_eqb_refl.
      cbn [andb owner at_stage retryCount app log chains].
      destruct (IH rc' st'
                  (set_nth i (mkChain a rc' AwaitingFetch)
                     (set_nth i (mkChain a rc' AwaitingTimer) ts))
                  (lg ++ Fetch a :: effects)%list) as (w' & Hexec & Happ & Hlog).
      { eapply nth_error_set_nth. eapply nth_error_set_nth. exact Hi. }
      exists w'. cbn [final trace].
      replace ((lg ++ [Fetch a]) ++ effects)%list with (lg ++ Fetch a :: effects)%list
        by (rewrite <- app_assoc; reflexivity).
      rewrite Hexec, Happ, Hlog. rewrite <- !app_assoc. repeat split.
    + eexists. cbn [exec app log final trace]. repeat split.
      rewrite <- app_assoc. reflexivity.
Qed.

(** An accepted invocation, alone on the page: the click, then the inputs of
    its only chain. *)
Lemma invoke_as_exec (a : action) (script : list settled) (st : AppState) :
  accepted a st ->
  exists w',
    exec (mkWorld st [] [])
         (Click a :: schedule a 0 script 0 (fst (begin a st))) = Some w'
    /\ app w' = final (invoke a script st)
    /\ log w' = trace (invoke a script st).
Proof.
  intros Hin. rewrite (invoke_accepted a script st Hin).
  pose proof (begin_accepted a st Hin) as Hgo.
  cbn [exec step app chains log].
  destruct (begin a st) as [st1 go]. cbn [snd fst] in *. subst go.
  exact (exec_schedule a 0 script 0 st1 [mkChain a 0 AwaitingFetch] [] eq_refl).
Qed.

(** * Further properties *)

(** ** Further properties of the retry loop *)

Section Runs.

Variable a : action.

(** What a successful [try] block stores and schedules does not depend on
    the state it starts from. *)
Lemma try_block_uniform (s : settled) :
  failing a s = false ->
  exists v,
    forall st,
      try_block a s st
      = Normal (setResult a v st,
                match a with
                | Analyze => [SetTimeout ScrollIntoView 100]
                | _ => []
                end).
Proof.
  unfold failing.
  destruct a; cbn [try_block setResult];
    unfold analyze_try, summarize_try, fact_try, bind;
    destruct (receive s) as [result0|e]; try discriminate;
    destruct (text_of result0) as [t|e]; try discriminate; eauto.
  destruct (negb (Js.truthy t)); try discriminate.
  destruct (Json.JSON_parse t); try discriminate; eauto.
Qed.

Lemma makeApiCall_first_success (s : settled) :
  failing a s = false ->
  exists v,
    forall script rc st,
      makeApiCall a (s :: script) rc st
      = mkOutcome (setBusy a false (setResult a v st))
                  (Fetch a :: match a with
                              | Analyze => [SetTimeout ScrollIntoView 100]
                              | _ => []
                              end)
                  false.
Proof.
  intros Hf. destruct (try_block_uniform s Hf) as [v Hv]. exists v.
  intros script rc st. cbn [makeApiCall]. rewrite attempt_unfold, Hv. destruct a; reflexivity.
Qed.

(** Every wait is followed by one fetch, and there are no more waits than
    retries left. *)
Lemma attempts_from (script : list settled) :
  forall (rc : Z) (st : AppState),
    0 <= rc <= 3 ->
    let t := trace (makeApiCall a script rc st) in
    attempts t = S (List.length (retry_delays t))
    /\ (Z.of_nat (List.length (retry_delays t)) <= 3 - rc).
Proof.
  induction script as [|s script IH]; intros rc st Hrc; cbv zeta.
  - cbn [makeApiCall trace retry_delays retry_delay List.length].
    split; [reflexivity|lia].
  - destruct (failing a s) eqn:Hf.
    + destruct (Z.eq_dec rc 3) as [->|Hne].
      * destruct (makeApiCall_give_up a s script 3 st Hf) as [e ->];
          [unfold maxRetries; lia|].
        cbn [trace retry_delays retry_delay List.length].
        split; [reflexivity|lia].
      * rewrite (makeApiCall_retry a s script rc st Hf) by (unfold maxRetries; lia).
        destruct (IH (rc + 1) (setBusy a false st)) as [Hn Hle]; [lia|].
        cbv zeta in *. cbn [trace].
        change (attempts (Fetch a :: SetTimeout MakeApiCall (backoff (rc + 1))
                            :: ?t))
          with (S (attempts t)).
        cbn [retry_delays retry_delay List.length].
        rewrite Hn. split; [reflexivity|lia].
    + destruct (makeApiCall_first_success s Hf) as [v ->].
      destruct a; cbn [trace retry_delays retry_delay List.length];
        (split; [reflexivity|lia]).
Qed.

(** With an answer to each of the fetches that are left, the loop comes to
    its end; and at its end the busy flag is down. *)
Lemma makeApiCall_completes (script : list settled) :
  forall (rc : Z) (st : AppState),
    0 <= rc <= 3 ->
    (4 - rc <= Z.of_nat (List.length script) ->
     pending (makeApiCall a script rc st) = false)
    /\ (pending (makeApiCall a script rc st) = false ->
        busy a (final (makeApiCall a script rc st)) = false).
Proof.
  induction script as [|s script IH]; intros rc st Hrc.
  - cbn [makeApiCall pending List.length]. split; [lia|discriminate].
  - destruct (failing a s) eqn:Hf.
    + destruct (Z.eq_dec rc 3) as [->|Hne].
      * destruct (makeApiCall_give_up a s script 3 st Hf) as [e ->];
          [unfold maxRetries; lia|].
        cbn [pending final]. split; intros _; [reflexivity|].
        destruct a; reflexivity.
      * rewrite (makeApiCall_retry a s script rc st Hf) by (unfold maxRetries; lia).
        cbv zeta. cbn [pending final].
        destruct (IH (rc + 1) (setBusy a false st)) as [Hp Hb]; [lia|].
        split; [|exact Hb].
        intros Hlen. apply Hp. cbn [List.length] in Hlen. lia.
    + destruct (makeApiCall_first_success s Hf) as [v ->].
      cbn [pending final]. split; intros _; [reflexivity|].
      destruct a; reflexivity.
Qed.

Lemma makeApiCall_inputText (script : list settled) :
  forall (rc : Z) (st : AppState),
    inputText (final (makeApiCall a script rc st)) = inputText st.
Proof.
  induction script as [|s script IH]; intros rc st; [reflexivity|].
  cbn [makeApiCall]. rewrite attempt_unfold.
  destruct (failing a s) eqn:Hf.
  - destruct (try_block_throws a s st Hf) as [e ->].
    destruct (rc <? maxRetries); cbn [schedules_retry existsb retry_delay orb final].
    + rewrite IH. destruct a; reflexivity.
    + destruct a; reflexivity.
  - destruct (try_block_uniform s Hf) as [v ->].
    destruct a; reflexivity.
Qed.

Lemma begin_inputText (st : AppState) :
  inputText (fst (begin a st)) = inputText st.
Proof.
  destruct a; cbn [begin]; unfold analyze_begin, summarize_begin, fact_begin;
    try destruct (negb (Js.truthy (JStr (Js.trim (inputText st)))));
    reflexivity.
Qed.

Lemma invoke_inputText (script : list settled) (st : AppState) :
  inputText (final (invoke a script st)) = inputText st.
Proof.
  unfold invoke. pose proof (begin_inputText st) as H.
  destruct (begin a st) as [st1 [|]]; cbn [fst] in H.
  - rewrite makeApiCall_inputText. exact H.
  - exact H.
Qed.

End Runs.

Lemma sum_firstn_delays (n : nat) :
  sum (firstn n [backoff 1; backoff 2; backoff 3]) <= 14000.
Proof. destruct n as [|[|[|[|n]]]]; vm_compute; discriminate. Qed.

(** X1. Whatever the endpoint does, an invocation calls it at most 4 times:
    once if it goes on to the network, and once more after each wait, of
    which there are at most 3 and which add up to at most 14000 ms. *)
Theorem X1_at_most_four_fetches (a : action) (script : list settled)
  (st : AppState) :
  let t := trace (invoke a script st) in
  (attempts t <= 4)%nat
  /\ attempts t
     = (if snd (begin a st) then S (List.length (retry_delays t)) else O)
  /\ (List.length (retry_delays t) <= 3)%nat
  /\ sum (retry_delays t) <= 14000.
Proof.
  cbv zeta.
  assert (Hsum : sum (retry_delays (trace (invoke a script st))) <= 14000).
  { unfold invoke. destruct (begin a st) as [st1 [|]].
    - destruct (retry_delays_from a script 0 st1) as [n ->]; [lia|].
      apply sum_firstn_delays.
    - vm_compute. discriminate. }
  unfold invoke in *. destruct (begin a st) as [st1 [|]]; cbn [snd].
  - destruct (attempts_from a script 0 st1) as [Hn Hle]; [lia|]. cbv zeta in *.
    repeat split; try assumption; lia.
  - cbn [trace attempts retry_delays filter List.length]. repeat split; try lia.
    vm_compute. discriminate.
Qed.

Lemma accepted_trim (a : action) (st : AppState) :
  accepted a st -> a <> Fact ->
  negb (Js.truthy (JStr (Js.trim (inputText st)))) = false.
Proof.
  intros [->|H] Ha; [congruence|].
  rewrite trim_eqb. now apply String.eqb_neq.
Qed.

(** X2. Once four answers are available, an invocation that went on to the
    network comes to its end, with the busy flag down and the button of the
    coordinator enabled again. *)
Theorem X2_four_answers_complete (a : action) (script : list settled)
  (st : AppState)
  (Hin : accepted a st)
  (Hlen : (4 <= List.length script)%nat) :
  let o := invoke a script st in
  pending o = false
  /\ busy a (final o) = false
  /\ disabled a (final o) = false.
Proof.
  cbv zeta.
  pose proof (invoke_inputText a script st) as Htext.
  rewrite (invoke_accepted a script st Hin) in *.
  destruct (makeApiCall_completes a script 0 (fst (begin a st))) as [Hp Hb];
    [lia|].
  specialize (Hp ltac:(lia)). specialize (Hb Hp).
  split; [exact Hp|]. split; [exact Hb|].
  destruct a; cbn [disabled busy] in *; try exact Hb.
  rewrite Hb, Htext. cbn [orb].
  apply (accepted_trim Summarize st Hin). discriminate.
Qed.

Lemma X2_witness :
  let script := [Rejected; Samples.http500; Rejected; Samples.http500; Rejected] in
  let st := Samples.typed "abc" in
  accepted Summarize st
  /\ (4 <= List.length script)%nat
  /\ pending (invoke Summarize script st) = false
  /\ disabled Summarize (final (invoke Summarize script st)) = false.
Proof.
  cbv zeta.
  assert (Hin : accepted Summarize (Samples.typed "abc"))
    by (right; vm_compute; discriminate).
  assert (Hlen : (4 <= List.length [Rejected; Samples.http500; Rejected;
                                     Samples.http500; Rejected])%nat)
    by (simpl; lia).
  pose proof (X2_four_answers_complete Summarize _ _ Hin Hlen) as (Hp & _ & Hd).
  exact (conj Hin (conj Hlen (conj Hp Hd))).
Defined.





(** The error slot after a loop with [n] attempts left. *)
Lemma error_from (a : action) (script : list settled) :
  forall (n : nat) (st : AppState),
    (1 <= n <= 4)%nat ->
    let o := makeApiCall a script (4 - Z.of_nat n) st in
    error (final o)
    = (if all_fail a n script then Some (failure_message a) else error st)
    /\ (all_fail a n script = true ->
        result a (final o) = result a st /\ pending o = false).
Proof.
  induction script as [|s script IH]; intros n st Hn; cbv zeta.
  - destruct n as [|n]; [lia|]. cbn [all_fail makeApiCall final].
    split; [reflexivity|discriminate].
  - destruct n as [|n]; [lia|]. cbn [all_fail].
    destruct (failing a s) eqn:Hf; cbn [andb].
    + destruct n as [|n].
      * cbn [all_fail].
        destruct (makeApiCall_give_up a s script (4 - Z.of_nat 1) st Hf)
          as [e ->]; [unfold maxRetries; lia|].
        cbn [final pending]. destruct a; repeat split.
      * rewrite (makeApiCall_retry a s script _ st Hf) by (unfold maxRetries; lia).
        cbv zeta. cbn [final pending].
        replace (4 - Z.of_nat (S (S n)) + 1) with (4 - Z.of_nat (S n)) by lia.
        destruct (IH (S n) (setBusy a false st)) as [He Hr]; [lia|].
        cbv zeta in He, Hr. rewrite He. split.
        -- destruct (all_fail a (S n) script); [reflexivity|].
           destruct a; reflexivity.
        -- intros Hall. destruct (Hr Hall) as [Hr1 Hr2]. split; [|exact Hr2].
           rewrite Hr1. destruct a; reflexivity.
    + destruct (makeApiCall_first_success a s Hf) as [v ->].
      cbn [final]. split; [destruct a; reflexivity|discriminate].
Qed.



(** ** The text the user typed *)

Lemma step_inputText (w w' : world) (e : input) :
  is_edit e = false -> step w e = Some w' ->
  inputText (app w') = inputText (app w).
Proof.
  intros He Hstep. destruct e as [text|b|b i s|b i]; cbn [step] in Hstep;
    try discriminate He.
  - pose proof (begin_inputText b (app w)) as H.
    destruct (begin b (app w)) as [st1 [|]]; injection Hstep as <-; exact H.
  - destruct (chain_at w b i AwaitingFetch) as [t|]; [|discriminate].
    pose proof (makeApiCall_inputText b [s] (retryCount t) (app w)) as H.
    cbn [makeApiCall] in H.
    destruct (attempt b s (retryCount t) (app w)) as [[st' rc'] effects].
    injection Hstep as <-. cbn [app].
    destruct (schedules_retry effects); exact H.
  - destruct (chain_at w b i AwaitingTimer) as [t|]; [|discriminate].
    injection Hstep as <-. reflexivity.
Qed.

(** X5. No coordinator ever writes the text of the input box: it is the same
    after an invocation run to its end, and after any run of the event loop
    in which the user does not edit it. *)
Theorem X5_input_text_untouched (es : list input) (w w' : world)
  (Hes : forallb (fun e => negb (is_edit e)) es = true)
  (Hexec : exec w es = Some w') :
  inputText (app w') = inputText (app w)
  /\ (forall a script st, inputText (final (invoke a script st)) = inputText st).
Proof.
  split; [|intros a script st; apply invoke_inputText].
  revert w Hes Hexec. induction es as [|e es IH]; intros w Hes Hexec;
    cbn [exec forallb] in *.
  - injection Hexec as <-. reflexivity.
  - apply andb_true_iff in Hes as [He Hes]. apply negb_true_iff in He.
    destruct (step w e) as [w1|] eqn:Hstep; [|discriminate].
    rewrite (IH w1 Hes Hexec). exact (step_inputText w w1 e He Hstep).
Qed.

Lemma X5_witness :
  let w := mkWorld (Samples.typed "abc") [] [] in
  let es := [Click Fact; Click Summarize; Settles Fact 0 Rejected;
             Settles Summarize 1 (Samples.ok200 (JObj []))] in
  forallb (fun e => negb (is_edit e)) es = true
  /\ exists w', exec w es = Some w' /\ inputText (app w') = "abc".
Proof.
  cbv zeta. split; [reflexivity|].
  eexists. split; [vm_compute; reflexivity|].
  match goal with
  | |- inputText (app ?w1) = _ =>
      exact (proj1 (X5_input_text_untouched
                      [Click Fact; Click Summarize; Settles Fact 0 Rejected;
                       Settles Summarize 1 (Samples.ok200 (JObj []))]
                      (mkWorld (Samples.typed "abc") [] []) w1
                      eq_refl eq_refl))
  end.
Defined.

(** ** Which invocations are rejected *)

(** X6. An invocation returns without calling the network exactly when its
    coordinator is analyze or summarize and the input is blank; it then
    leaves the state as it was, but for the validation message. *)
Theorem X6_rejected_iff_blank (a : action) (script : list settled)
  (st : AppState) :
  (trace (invoke a script st) = [] <-> a <> Fact /\ blank (inputText st))
  /\ (trace (invoke a script st) = [] ->
      final (invoke a script st) = setError (Some (validation_message a)) st).
Proof.
  assert (Hrej : a <> Fact /\ blank (inputText st) ->
                 invoke a script st
                 = mkOutcome (setError (Some (validation_message a)) st) [] false).
  { intros [Ha Hb]. apply trim_blank in Hb. unfold invoke.
    rewrite (begin_rejected a st Ha Hb). reflexivity. }
  assert (Hacc : trace (invoke a script st) = [] ->
                 a <> Fact /\ blank (inputText st)).
  { intros Ht.
    assert (Hna : ~ accepted a st).
    { intros Hin. rewrite (invoke_accepted a script st Hin) in Ht.
      destruct (makeApiCall_starts a script 0 (fst (begin a st))) as [t Hs].
      rewrite Hs in Ht. discriminate. }
    split.
    - intros ->. apply Hna. left. reflexivity.
    - apply trim_empty_iff_blank.
      destruct (String.eqb_spec (Js.trim (inputText st)) "") as [H|H];
        [exact H|].
      exfalso. apply Hna. right. exact H. }
  split; [split|].
  - exact Hacc.
  - intros H. rewrite (Hrej H). reflexivity.
  - intros H. rewrite (Hrej (Hacc H)). reflexivity.
Qed.

Lemma X6_witness :
  trace (invoke Summarize [Rejected] (Samples.typed "   ")) = []
  /\ final (invoke Summarize [Rejected] (Samples.typed "   "))
     = setError (Some "Please enter some text to summarize.")
                (Samples.typed "   ").
Proof.
  assert (H : trace (invoke Summarize [Rejected] (Samples.typed "   ")) = []).
  { apply (proj1 (X6_rejected_iff_blank Summarize [Rejected]
                    (Samples.typed "   "))).
    split; [discriminate|exact blank_three_spaces]. }
  exact (conj H (proj2 (X6_rejected_iff_blank Summarize [Rejected]
                          (Samples.typed "   ")) H)).
Defined.

(** ** Which answers fail a plain-text attempt *)

(** X7. An attempt of the summarize or of the fact coordinator fails in
    these cases and in no other: the fetch is rejected, the status is not
    2xx, the body is not JSON, or the body is the JSON value null.  Every
    other body, whatever its shape, is a success. *)
Theorem X7_plain_text_failures (a : action) (s : settled)
  (Ha : a <> Analyze) :
  failing a s = true <->
  match s with
  | Rejected => True
  | Fulfilled r =>
      ok r = false \/ body r = None
      \/ body r = Some JNull \/ body r = Some JUndefined
  end.
Proof.
  unfold failing.
  destruct a; [congruence| |]; cbn [try_block];
    unfold summarize_try, fact_try, bind, receive;
    (destruct s as [|r]; [tauto|]);
    destruct (ok r); cbn [negb]; try tauto;
    (destruct (body r) as [v|]; [|tauto]);
    destruct v; cbn; split; intros H;
    try discriminate H; try reflexivity; try tauto;
    destruct H as [H|[H|[H|H]]]; discriminate H.
Qed.

Lemma X7_witness :
  failing Summarize (Fulfilled (mkResponse 200 "OK" (Some JNull))) = true
  /\ failing Fact (Samples.ok200 (JArr [])) = false.
Proof.
  split.
  - apply (proj2 (X7_plain_text_failures Summarize
                    (Fulfilled (mkResponse 200 "OK" (Some JNull)))
                    ltac:(discriminate))).
    right. right. left. reflexivity.
  - destruct (failing Fact (Samples.ok200 (JArr []))) eqn:Hf; [|reflexivity].
    apply (proj1 (X7_plain_text_failures Fact (Samples.ok200 (JArr []))
                    ltac:(discriminate))) in Hf.
    destruct Hf as [Hf|[Hf|[Hf|Hf]]]; discriminate Hf.
Defined.

(** ** What an invocation forgets *)

(** X8. An invocation that goes on to the network does not depend on what
    its coordinator's busy flag and result slot held before; for analyze and
    fact it does not depend on the error slot either. *)
Theorem X8_history_independent (a : action) (script : list settled)
  (st : AppState) (v : jsval) (b : bool) (e : option string)
  (Hin : accepted a st) :
  invoke a script (setBusy a b (setResult a v st)) = invoke a script st
  /\ (a <> Summarize -> invoke a script (setError e st) = invoke a script st).
Proof.
  assert (Hb : forall st', inputText st' = inputText st ->
                 snd (begin a st') = true).
  { intros st' Heq. apply begin_accepted. destruct Hin as [->|Hin];
      [left; reflexivity|right; rewrite Heq; exact Hin]. }
  unfold invoke. split.
  - assert (Heq : fst (begin a (setBusy a b (setResult a v st)))
                  = fst (begin a st)).
    { destruct a; cbn [begin]; unfold analyze_begin, summarize_begin, fact_begin;
        try reflexivity;
        rewrite (accepted_trim _ st Hin) by discriminate;
        [change (inputText (setBusy Analyze b (setResult Analyze v st)))
           with (inputText st)
        |change (inputText (setBusy Summarize b (setResult Summarize v st)))
           with (inputText st)];
        rewrite (accepted_trim _ st Hin) by discriminate; reflexivity. }
    pose proof (Hb (setBusy a b (setResult a v st))
                   ltac:(destruct a; reflexivity)) as H1.
    pose proof (Hb st eq_refl) as H2.
    destruct (begin a (setBusy a b (setResult a v st))) as [s1 p1].
    destruct (begin a st) as [s2 p2]. cbn [fst snd] in *. subst. reflexivity.
  - intros Ha.
    assert (Heq : fst (begin a (setError e st)) = fst (begin a st)).
    { destruct a; [|congruence|reflexivity].
      cbn [begin]. unfold analyze_begin.
      change (inputText (setError e st)) with (inputText st).
      rewrite (accepted_trim _ st Hin) by discriminate. reflexivity. }
    pose proof (Hb (setError e st) eq_refl) as H1.
    pose proof (Hb st eq_refl) as H2.
    destruct (begin a (setError e st)) as [s1 p1].
    destruct (begin a st) as [s2 p2]. cbn [fst snd] in *. subst. reflexivity.
Qed.

Lemma X8_witness :
  let st := Samples.typed "abc" in
  accepted Analyze st
  /\ invoke Analyze [Rejected]
            (setBusy Analyze true (setResult Analyze (JStr "old") st))
     = invoke Analyze [Rejected] st.
Proof.
  cbv zeta.
  assert (Hin : accepted Analyze (Samples.typed "abc"))
    by (right; vm_compute; discriminate).
  exact (conj Hin (proj1 (X8_history_independent Analyze [Rejected]
                            (Samples.typed "abc") (JStr "old") true None Hin))).
Defined.

(** ** The helpers of the results panel *)

Ltac score_cases :=
  repeat match goal with
         | |- context [?x <? ?y] => destruct (Z.ltb_spec x y)
         end.

(** X9. Of the fifteen pairs of a bar colour and a label, a score is shown
    with one of six, and each of the six is that of some score: red goes with
    the two misleading labels, green with the two highest ones, yellow with
    the two in between. *)
Theorem X9_colour_and_label_agree :
  (forall score : Z,
     In (getCredibilityBarColor score, getScoreText score)
        [("bg-red-500", "Highly Misleading");
         ("bg-red-500", "Potentially Misleading");
         ("bg-yellow-500", "Potentially Misleading");
         ("bg-yellow-500", "Moderately Credible");
         ("bg-green-500", "Highly Credible");
         ("bg-green-500", "Extremely Credible")])
  /\ map (fun score => (getCredibilityBarColor score, getScoreText score))
         [30; 40; 50; 70; 90; 91]
     = [("bg-red-500", "Highly Misleading");
        ("bg-red-500", "Potentially Misleading");
        ("bg-yellow-500", "Potentially Misleading");
        ("bg-yellow-500", "Moderately Credible");
        ("bg-green-500", "Highly Credible");
        ("bg-green-500", "Extremely Credible")].
Proof.
  split; [|reflexivity].
  intros score. unfold getCredibilityBarColor, getScoreText.
  score_cases; try lia; cbn [In]; tauto.
Qed.

(** X10. A higher score never gets a lower label nor a lower colour; there
    is no bound on the score, so that anything above 90 is at the top and
    anything up to 30, negative scores too, at the bottom. *)
Theorem X10_labels_monotone (s s' : Z) (Hle : s <= s') :
  (index_of (getScoreText s) score_texts
   <= index_of (getScoreText s') score_texts)%nat
  /\ (index_of (getCredibilityBarColor s) bar_colors
      <= index_of (getCredibilityBarColor s') bar_colors)%nat
  /\ (90 < s -> getScoreText s' = "Extremely Credible"
                /\ getCredibilityBarColor s' = "bg-green-500")
  /\ (s' <= 30 -> getScoreText s = "Highly Misleading"
                  /\ getCredibilityBarColor s = "bg-red-500").
Proof.
  unfold getCredibilityBarColor, getScoreText.
  repeat split; score_cases; try lia; try reflexivity;
    cbn; try lia; intros; lia.
Qed.

Lemma X10_witness :
  -5 <= 150
  /\ getScoreText (-5) = "Highly Misleading"
  /\ (index_of (getCredibilityBarColor (-5)) bar_colors
      <= index_of (getCredibilityBarColor 150) bar_colors)%nat.
Proof.
  assert (Hle : -5 <= 150) by lia.
  pose proof (X10_labels_monotone (-5) 150 Hle) as (_ & Hc & _ & _).
  exact (conj Hle (conj eq_refl Hc)).
Defined.

(** ** What the page shows *)

(** X11. The summarize button is disabled on a blank input, so that a click
    on it, when it gets through, always goes on to the network: the
    validation message of [summarizeContent] cannot be reached from its
    button.  The analyze button has no such condition. *)
Theorem X11_summarize_button_guards_input (w : world)
  (Hen : disabled Summarize (app w) = false) :
  accepted Summarize (app w)
  /\ ui_step w (Click Summarize)
     = Some (mkWorld (setSummary JNull (setIsSummarizing true (app w)))
                     (chains w ++ [mkChain Summarize 0 AwaitingFetch])
                     (log w ++ [Fetch Summarize]))
  /\ (forall st, loading st = false ->
        disabled Analyze st = false
        /\ (blank (inputText st) ->
            ui_step (mkWorld st [] []) (Click Analyze)
            = Some (mkWorld
                      (setError (Some "Please enter some text to analyze.") st)
                      [] []))).
Proof.
  cbn [disabled] in Hen. apply orb_false_iff in Hen as [Hbusy Htrim].
  assert (Hin : accepted Summarize (app w)).
  { right. rewrite trim_eqb in Htrim. now apply String.eqb_neq. }
  split; [exact Hin|]. split.
  - cbn [ui_step disabled]. rewrite Hbusy, Htrim. cbn [orb step begin].
    unfold summarize_begin. rewrite Htrim. reflexivity.
  - intros st Hl. split; [exact Hl|].
    intros Hb. apply trim_blank in Hb.
    cbn [ui_step disabled app]. rewrite Hl. cbn [step app begin].
    unfold analyze_begin. rewrite trim_eqb, Hb. reflexivity.
Qed.

Lemma X11_witness :
  let w := mkWorld (Samples.typed "abc") [] [] in
  disabled Summarize (app w) = false
  /\ ui_step w (Click Summarize)
     = Some (mkWorld (setSummary JNull (setIsSummarizing true (app w)))
                     [mkChain Summarize 0 AwaitingFetch] [Fetch Summarize]).
Proof.
  cbv zeta.
  exact (conj eq_refl
              (proj1 (proj2 (X11_summarize_button_guards_input
                               (mkWorld (Samples.typed "abc") [] []) eq_refl)))).
Defined.

(** X14. A 2xx answer to the analyze operation whose text parses to a falsy
    value (null, false, 0, the empty string) is a success like any other: it
    is stored, no error is set, nothing is retried, and the page shows
    neither the results panel nor a message. *)
Theorem X14_falsy_analysis_shows_nothing (st : AppState) (r : Response)
  (result0 : jsval) (t : string) (v : jsval) (rest : list settled)
  (Hin : accepted Analyze st)
  (Hok : ok r = true)
  (Hbody : body r = Some result0)
  (Htext : text_of result0 = Normal (JStr t))
  (Hv : Json.parse t = Some v)
  (Hfalsy : Js.truthy v = false) :
  let o := analyzeContent (Fulfilled r :: rest) st in
  results (final o) = v
  /\ pending o = false
  /\ attempts (trace o) = 1%nat
  /\ panel_shown Analyze (final o) = false
  /\ error_shown (final o) = None
  /\ disabled Analyze (final o) = false.
Proof.
  cbv zeta. unfold analyzeContent. rewrite (invoke_accepted Analyze _ st Hin).
  rewrite (analyze_begin_accepted st Hin).
  cbn [makeApiCall attempt]. unfold analyze_attempt.
  rewrite (analyze_try_parsed r result0 t v _ Hok Hbody Htext Hv).
  cbn [schedules_retry existsb retry_delay orb final pending trace].
  unfold panel_shown, error_shown. cbn. rewrite Hfalsy. repeat split.
Qed.

Lemma X14_witness :
  let st := Samples.typed "abc" in
  let result0 := Samples.with_text (JStr "null") in
  let r := mkResponse 200 "OK" (Some result0) in
  accepted Analyze st
  /\ Json.parse "null" = Some JNull
  /\ panel_shown Analyze (final (analyzeContent [Fulfilled r] st)) = false
  /\ error_shown (final (analyzeContent [Fulfilled r] st)) = None.
Proof.
  cbv zeta.
  assert (Hin : accepted Analyze (Samples.typed "abc"))
    by (right; vm_compute; discriminate).
  pose proof (X14_falsy_analysis_shows_nothing (Samples.typed "abc")
                (mkResponse 200 "OK" (Some (Samples.with_text (JStr "null"))))
                (Samples.with_text (JStr "null")) "null" JNull []
                Hin eq_refl eq_refl eq_refl eq_refl eq_refl)
    as (_ & _ & _ & Hp & He & _).
  exact (conj Hin (conj eq_refl (conj Hp He))).
Defined.

(** ** How many operations of a coordinator are in flight *)











(** X13. After one failed attempt the button is enabled again although the
    retry is still to come: a second click gets through and the coordinator
    has two operations in flight. *)
Theorem X13_second_click_during_retry (a : action) (st : AppState)
  (s : settled)
  (Hen : disabled a st = false)
  (Hin : accepted a st)
  (Hf : failing a s = true) :
  exists w,
    ui_exec (mkWorld st [] []) [Click a; Settles a 0 s; Click a] = Some w
    /\ chains w = [mkChain a 1 AwaitingTimer; mkChain a 0 AwaitingFetch]
    /\ live a w = 2%nat.
Proof.
  assert (Hgo : forall st', inputText st' = inputText st ->
                  snd (begin a st') = true).
  { intros st' Heq. apply begin_accepted.
    destruct Hin as [->|Hin]; [left; reflexivity|right; rewrite Heq; exact Hin]. }
  assert (Hen' : forall st', inputText st' = inputText st ->
                   busy a st' = false -> disabled a st' = false).
  { intros st' Heq Hb. destruct a; cbn [disabled busy] in *; try exact Hb.
    rewrite Hb, Heq. apply orb_false_iff in Hen as [_ Hen]. exact Hen. }
  cbn [ui_exec ui_step app]. rewrite Hen. cbn [step app chains log].
  pose proof (Hgo st eq_refl) as Hgo1.
  pose proof (begin_inputText a st) as Htext1.
  destruct (begin a st) as [st1 go1]. cbn [fst snd] in *. subst go1.
  cbn [List.app]. unfold chain_at. cbn [chains nth_error owner at_stage].
  rewrite action_eqb_refl. cbn [stage_eqb andb retryCount app].
  rewrite (attempt_retry a s 0 st1 Hf) by (unfold maxRetries; lia).
  cbn [schedules_retry existsb retry_delay orb set_nth log ui_exec ui_step app].
  assert (Hb2 : busy a (setBusy a false st1) = false) by (destruct a; reflexivity).
  assert (Ht2 : inputText (setBusy a false st1) = inputText st)
    by (rewrite <- Htext1; destruct a; reflexivity).
  rewrite (Hen' _ Ht2 Hb2). cbn [step app chains log].
  pose proof (Hgo _ Ht2) as Hgo2.
  destruct (begin a (setBusy a false st1)) as [st2 go2]. cbn [snd] in Hgo2.
  subst go2. eexists. split; [reflexivity|]. cbn [chains List.app].
  split; [reflexivity|]. unfold live. cbn [chains filter].
  destruct a; reflexivity.
Qed.

Lemma X13_witness :
  disabled Analyze (Samples.typed "abc") = false
  /\ accepted Analyze (Samples.typed "abc")
  /\ failing Analyze Samples.http500 = true
  /\ exists w,
       ui_exec (mkWorld (Samples.typed "abc") [] [])
               [Click Analyze; Settles Analyze 0 Samples.http500; Click Analyze]
       = Some w
       /\ live Analyze w = 2%nat.
Proof.
  assert (Hin : accepted Analyze (Samples.typed "abc"))
    by (right; vm_compute; discriminate).
  destruct (X13_second_click_during_retry Analyze (Samples.typed "abc")
              Samples.http500 eq_refl Hin eq_refl) as (w & Hw & _ & Hl).
  refine (conj eq_refl (conj Hin (conj eq_refl _))).
  exists w. exact (conj Hw Hl).
Defined.

(** ** What can be in the error slot *)

(** X15. Whatever the endpoint answers, the error slot after an invocation
    holds nothing, what it held before, or one of the two fixed messages of
    the coordinator: no status, status text or exception of a failed attempt
    ever gets into the state. *)
Theorem X15_only_fixed_messages (a : action) (script : list settled)
  (st : AppState) :
  In (error (final (invoke a script st)))
     [None; error st; Some (validation_message a); Some (failure_message a)].
Proof.
  unfold invoke.
  destruct (begin a st) as [st1 go] eqn:Hbegin.
  assert (H1 : go = false -> error st1 = Some (validation_message a)).
  { destruct a; cbn [begin] in Hbegin;
      unfold analyze_begin, summarize_begin, fact_begin in Hbegin;
      try destruct (negb (Js.truthy (JStr (Js.trim (inputText st)))));
      injection Hbegin as <- <-; intros; (reflexivity || discriminate). }
  assert (H2 : go = true -> error st1 = None \/ error st1 = error st).
  { destruct a; cbn [begin] in Hbegin;
      unfold analyze_begin, summarize_begin, fact_begin in Hbegin;
      try destruct (negb (Js.truthy (JStr (Js.trim (inputText st)))));
      injection Hbegin as <- <-; intros; try discriminate; auto. }
  destruct go.
  - destruct (error_from a script 4 st1) as [He _]; [lia|].
    cbv zeta in He. change (4 - Z.of_nat 4) with 0 in He. rewrite He.
    destruct (all_fail a 4 script); cbn [In]; [tauto|].
    destruct (H2 eq_refl) as [->| ->]; tauto.
  - cbn [final In]. rewrite (H1 eq_refl). tauto.
Qed.
